(** * Cortina medals dashboard: the data path of [src/main.jsx]

    A shallow embedding of the three pieces of logic of the dashboard
    ([parseCSV], [buildHistoryChartData], and the load / selection state
    of [OlympicsDashboard]) together with the properties the
    specification states about them.

    Conventions of the embedding:
    - a JavaScript string is the list of its UTF-16 code units;
    - a Number other than NaN is carried as the exact rational it
      denotes (or an infinity); NaN is the [None] of [option number].
      Rounding to binary64 and the sign of zero are not tracked;
    - an ordinary object is the table of its own properties in creation
      order; [Object_values] applies the engine's key order on top;
    - code that can throw returns a [completion]. *)

From Stdlib Require Import Ascii String DecimalString.
From Stdlib Require Import NArith ZArith QArith Qround Bool Lia.
From Stdlib Require Import List Permutation Sorted.
Import ListNotations.

(* ------------------------------------------------------------------ *)
(** ** Strings *)

Module JsString.

Definition jsstring := list N.

(** An ASCII literal as a JavaScript string. *)
Definition str (s : string) : jsstring :=
  List.map N_of_ascii (list_ascii_of_string s).

Definition LF : N := 10.
Definition CR : N := 13.
Definition COMMA : N := 44.

Fixpoint streq (a b : jsstring) : bool :=
  match a, b with
  | [], [] => true
  | x :: a', y :: b' => N.eqb x y && streq a' b'
  | _, _ => false
  end.

(** WhiteSpace and LineTerminator code units, the set stripped by
    [String.prototype.trim] and skipped by [Number] around a literal. *)
Definition isWhiteSpace (c : N) : bool :=
  ((9 <=? c) && (c <=? 13) || (c =? 32) || (c =? 160) || (c =? 5760)
   || (8192 <=? c) && (c <=? 8202) || (c =? 8232) || (c =? 8233)
   || (c =? 8239) || (c =? 8287) || (c =? 12288) || (c =? 65279))%N.

Fixpoint dropWhile (p : N -> bool) (s : jsstring) : jsstring :=
  match s with
  | [] => []
  | c :: r => if p c then dropWhile p r else s
  end.

Definition trimStart (s : jsstring) : jsstring := dropWhile isWhiteSpace s.
Definition trimEnd (s : jsstring) : jsstring :=
  rev (dropWhile isWhiteSpace (rev s)).

(** [s.trim()] *)
Definition trim (s : jsstring) : jsstring := trimEnd (trimStart s).

(** [s.replace(/\r\n/g, "\n")] *)
Fixpoint replaceCRLF (s : jsstring) : jsstring :=
  match s with
  | [] => []
  | c :: r =>
      match r with
      | d :: r' =>
          if (c =? CR)%N && (d =? LF)%N
          then LF :: replaceCRLF r'
          else c :: replaceCRLF r
      | [] => [c]
      end
  end.

(** [s.replace(/\r/g, "\n")] *)
Definition replaceCR (s : jsstring) : jsstring :=
  List.map (fun c => if (c =? CR)%N then LF else c) s.

(** [s.split(sep)] for a one-unit separator; the result always has at
    least one piece (the empty string splits into one empty piece). *)
Fixpoint split (sep : N) (s : jsstring) : list jsstring :=
  match s with
  | [] => [[]]
  | c :: r =>
      if (c =? sep)%N then [] :: split sep r
      else match split sep r with
           | piece :: rest => (c :: piece) :: rest
           | [] => [[c]]
           end
  end.

(** A non-empty string is truthy. *)
Definition truthyString (s : jsstring) : bool :=
  match s with [] => false | _ => true end.

End JsString.
Export JsString.

(* ------------------------------------------------------------------ *)
(** ** Numbers and primitive values *)

Module JsValue.

(** A Number that is not NaN. *)
Inductive number : Type :=
| Fin (q : Q)
| Inf (negative : bool).

Inductive value : Type :=
| VUndef
| VNum (n : number)
| VStr (s : jsstring).

Definition isNaN (n : option number) : bool :=
  match n with None => true | Some _ => false end.

Definition isNumber (v : value) : bool :=
  match v with VNum _ => true | _ => false end.

Definition isDigit (c : N) : bool := ((48 <=? c) && (c <=? 57))%N.

Definition digitOf (base c : N) : option N :=
  let d :=
    if ((48 <=? c) && (c <=? 57))%N then Some (c - 48)%N
    else if ((97 <=? c) && (c <=? 102))%N then Some (c - 87)%N
    else if ((65 <=? c) && (c <=? 70))%N then Some (c - 55)%N
    else None in
  match d with
  | Some v => if (v <? base)%N then Some v else None
  | None => None
  end.

Fixpoint digitsValue (base acc : N) (s : jsstring) : option N :=
  match s with
  | [] => Some acc
  | c :: r =>
      match digitOf base c with
      | Some d => digitsValue base (base * acc + d)%N r
      | None => None
      end
  end.

Fixpoint spanDigits (s : jsstring) : jsstring * jsstring :=
  match s with
  | [] => ([], [])
  | c :: r =>
      if isDigit c
      then let (ds, rest) := spanDigits r in (c :: ds, rest)
      else ([], s)
  end.

Definition decimalValue (ds : jsstring) : N :=
  fold_left (fun acc c => (10 * acc + (c - 48))%N) ds 0%N.

Definition pow10 (e : Z) : Q :=
  if (0 <=? e)%Z then inject_Z (10 ^ e)
  else 1 # Z.to_pos (10 ^ (- e)).

(** ExponentPart (optional), then the end of the text. *)
Definition parseExponent (s : jsstring) : option Z :=
  match s with
  | [] => Some 0%Z
  | c :: r =>
      if ((c =? 101) || (c =? 69))%N then
        let '(neg, r1) :=
          match r with
          | sgn :: t =>
              if (sgn =? 43)%N then (false, t)
              else if (sgn =? 45)%N then (true, t)
              else (false, r)
          | [] => (false, r)
          end in
        let (ds, rest) := spanDigits r1 in
        match ds, rest with
        | _ :: _, [] =>
            let e := Z.of_N (decimalValue ds) in
            Some (if neg then (- e)%Z else e)
        | _, _ => None
        end
      else None
  end.

Definition scaled (mant : jsstring) (e : Z) : number :=
  Fin (inject_Z (Z.of_N (decimalValue mant)) * pow10 e).

(** StrUnsignedDecimalLiteral *)
Definition parseUnsignedDecimal (s : jsstring) : option number :=
  if streq s (str "Infinity") then Some (Inf false)
  else
    let (ip, r) := spanDigits s in
    match r with
    | c :: r1 =>
        if (c =? 46)%N then
          let (fp, r2) := spanDigits r1 in
          match ip ++ fp with
          | [] => None
          | _ :: _ =>
              match parseExponent r2 with
              | Some e => Some (scaled (ip ++ fp) (e - Z.of_nat (length fp)))
              | None => None
              end
          end
        else
          match ip with
          | [] => None
          | _ :: _ =>
              match parseExponent r with
              | Some e => Some (scaled ip e)
              | None => None
              end
          end
    | [] =>
        match ip with
        | [] => None
        | _ :: _ => Some (scaled ip 0)
        end
    end.

(** NonDecimalIntegerLiteral: [0x], [0o], [0b] and at least one digit. *)
Definition parseNonDecimal (s : jsstring) : option number :=
  match s with
  | z :: x :: ((_ :: _) as ds) =>
      if (z =? 48)%N then
        let base :=
          if ((x =? 120) || (x =? 88))%N then Some 16%N
          else if ((x =? 111) || (x =? 79))%N then Some 8%N
          else if ((x =? 98) || (x =? 66))%N then Some 2%N
          else None in
        match base with
        | Some b =>
            match digitsValue b 0 ds with
            | Some v => Some (Fin (inject_Z (Z.of_N v)))
            | None => None
            end
        | None => None
        end
      else None
  | _ => None
  end.

Definition negate (n : number) : number :=
  match n with
  | Fin q => Fin (- q)
  | Inf s => Inf (negb s)
  end.

(** [Number(s)] on a string: white space around the literal is skipped,
    the empty text is 0, anything that is not a numeric literal is NaN. *)
Definition Number (s : jsstring) : option number :=
  match trim s with
  | [] => Some (Fin 0)
  | (c :: r) as t =>
      match parseNonDecimal t with
      | Some n => Some n
      | None =>
          if (c =? 43)%N then parseUnsignedDecimal r
          else if (c =? 45)%N then option_map negate (parseUnsignedDecimal r)
          else parseUnsignedDecimal t
      end
  end.

End JsValue.
Export JsValue.

(* ------------------------------------------------------------------ *)
(** ** Ordinary objects and completions *)

Module JsObject.

(** Own properties, oldest first. *)
Definition object (A : Type) := list (jsstring * A).

Fixpoint obj_get {A} (o : object A) (k : jsstring) : option A :=
  match o with
  | [] => None
  | (k', v) :: o' => if streq k' k then Some v else obj_get o' k
  end.

(** CreateDataProperty: an existing key keeps its place and takes the new
    value, a new key goes last. *)
Fixpoint obj_set {A} (k : jsstring) (v : A) (o : object A) : object A :=
  match o with
  | [] => [(k, v)]
  | (k', v') :: o' =>
      if streq k' k then (k', v) :: o' else (k', v') :: obj_set k v o'
  end.

(** [Object.fromEntries(entries)] *)
Definition Object_fromEntries {A} (entries : list (jsstring * A)) : object A :=
  fold_left (fun o kv => obj_set (fst kv) (snd kv) o) entries [].

(** [o.k] for a key that [Object.prototype] does not define: the own
    property, or [undefined]. *)
Definition Get (o : object value) (k : jsstring) : value :=
  match obj_get o k with
  | Some v => v
  | None => VUndef
  end.

Inductive completion (A : Type) : Type :=
| Normal (a : A)
| Throw (message : jsstring).
Arguments Normal {A} a.
Arguments Throw {A} message.

Definition bind {A B} (c : completion A) (k : A -> completion B) : completion B :=
  match c with
  | Normal a => k a
  | Throw m => Throw m
  end.

End JsObject.
Export JsObject.

Notation "'do' x <- c ; k" := (bind c (fun x => k))
  (at level 10, x name, c at level 100, k at level 200).

(* ------------------------------------------------------------------ *)
(** ** parseCSV *)

Module Parser.

Definition record := object value.

(** [arr.map((x, i) => f x i)] *)
Fixpoint mapi_from {A B} (f : A -> nat -> B) (i : nat) (l : list A) : list B :=
  match l with
  | [] => []
  | x :: r => f x i :: mapi_from f (S i) r
  end.
Definition mapi {A B} (f : A -> nat -> B) (l : list A) : list B :=
  mapi_from f 0 l.

(** [values[i] ?? EMPTY] with [EMPTY] the empty string: an index past the
    end reads [undefined]. *)
Definition valueAt (values : list jsstring) (i : nat) : jsstring :=
  match nth_error values i with
  | Some v => v
  | None => []
  end.

(** [isNaN(num) || val === EMPTY ? val : num] with [num = Number(val)]
    and [EMPTY] the empty string. *)
Definition coerce (val : jsstring) : value :=
  let num := Number val in
  match num with
  | None => VStr val
  | Some n => if streq val [] then VStr val else VNum n
  end.

(** The entries built for one data line. *)
Definition lineEntries (headers : list jsstring) (line : jsstring)
  : list (jsstring * value) :=
  let values := List.map trim (split COMMA line) in
  mapi (fun h i => (h, coerce (valueAt values i))) headers.

Definition lineRecord (headers : list jsstring) (line : jsstring) : record :=
  Object_fromEntries (lineEntries headers line).

Definition normalize (text : jsstring) : jsstring :=
  replaceCR (replaceCRLF (trim text)).

(** [const [headerLine, ...lines] = arr]: the first element, [undefined]
    for an empty array, and the rest. *)
Definition destructure {A} (arr : list A) : option A * list A :=
  match arr with
  | [] => (None, [])
  | x :: r => (Some x, r)
  end.

Definition parseCSV (text : jsstring) : completion (list record) :=
  let normalized := normalize text in
  let (headerLine, lines) := destructure (split LF normalized) in
  do headers <-
     match headerLine with
     | Some hl => Normal (List.map trim (split COMMA hl))
     | None => Throw (str "Cannot read properties of undefined (reading 'split')")
     end;
  Normal
    (List.map (lineRecord headers)
       (List.filter (fun l => truthyString (trim l)) lines)).

End Parser.
Export Parser.

(* ------------------------------------------------------------------ *)
(** ** buildHistoryChartData *)

Module Pivot.

Definition point := object value.

(** What the program uses of the host: the date formatter
    [new Date(v).toLocaleDateString("en-US", { month: "short", day: "2-digit" })]
    and the Number-to-String conversion. The en-US labels are
    ["Mon DD"] or ["Invalid Date"]: each contains a space, so none is an
    array index or names a member of [Object.prototype], and
    [byDate[label]] only ever sees own properties of [byDate]. *)
Record Host : Type := {
  formatDate : value -> jsstring;
  NumberToString : number -> jsstring;
  formatDate_spaced : forall v, existsb (N.eqb 32) (formatDate v) = true
}.

(** ToPropertyKey on a primitive. *)
Definition ToPropertyKey (host : Host) (v : value) : jsstring :=
  match v with
  | VUndef => str "undefined"
  | VNum n => NumberToString host n
  | VStr s => s
  end.

(** [p[k] = v] on an ordinary object with a primitive [v]: the key
    [__proto__] reaches the setter inherited from [Object.prototype],
    which ignores a primitive; every other key is written as an own
    property. *)
Definition Put (p : point) (k : jsstring) (v : value) : point :=
  if streq k (str "__proto__") then p else obj_set k v p.

(** The canonical decimal text of an integer below 2^32 - 1. *)
Definition arrayIndex (k : jsstring) : option N :=
  match k with
  | [] => None
  | c :: r =>
      if forallb isDigit k && (negb (c =? 48)%N || streq r [])
      then let v := decimalValue k in
           if (v <? 4294967295)%N then Some v else None
      else None
  end.

Fixpoint insertIndexed {A} (i : N) (x : A) (l : list (N * A)) : list (N * A) :=
  match l with
  | [] => [(i, x)]
  | (j, y) :: l' =>
      if (i <? j)%N then (i, x) :: l else (j, y) :: insertIndexed i x l'
  end.

(** [Object.values(o)]: array-index keys in ascending order, then the
    other keys in creation order. *)
Definition Object_values {A} (o : object A) : list A :=
  let indexed :=
    fold_right
      (fun kv acc =>
         match arrayIndex (fst kv) with
         | Some i => insertIndexed i (snd kv) acc
         | None => acc
         end) [] o in
  let named :=
    List.filter
      (fun kv => match arrayIndex (fst kv) with Some _ => false | None => true end) o in
  List.map snd indexed ++ List.map snd named.

Section WithHost.
Variable host : Host.

(** One iteration of the loop over [rows]. *)
Definition pivotStep (byDate : object point) (row : record) : object point :=
  let label := formatDate host (Get row (str "Scrape_Date")) in
  let byDate1 :=
    match obj_get byDate label with
    | Some _ => byDate
    | None => obj_set label [(str "date", VStr label)] byDate
    end in
  match obj_get byDate1 label with
  | Some p =>
      obj_set label
        (Put p (ToPropertyKey host (Get row (str "Country"))) (Get row (str "Gold")))
        byDate1
  | None => byDate1
  end.

Definition buildByDate (rows : list record) : object point :=
  fold_left pivotStep rows [].

Definition buildHistoryChartData (rows : list record) : list point :=
  Object_values (buildByDate rows).

End WithHost.

End Pivot.
Export Pivot.

(* ------------------------------------------------------------------ *)
(** ** Dashboard state: loading and selection *)

Module Dashboard.

(** ToNumber on a primitive; [None] is NaN. *)
Definition ToNumber (v : value) : option number :=
  match v with
  | VUndef => None
  | VNum n => Some n
  | VStr s => Number s
  end.

(** [a - b] on Numbers. *)
Definition subtract (a b : option number) : option number :=
  match a, b with
  | Some (Fin x), Some (Fin y) => Some (Fin (x - y))
  | Some (Inf s), Some (Fin _) => Some (Inf s)
  | Some (Fin _), Some (Inf t) => Some (Inf (negb t))
  | Some (Inf s), Some (Inf t) => if Bool.eqb s t then None else Some (Inf s)
  | _, _ => None
  end.

(** How [sort] reads a comparator result: NaN counts as 0. *)
Definition signOf (v : option number) : comparison :=
  match v with
  | None => Eq
  | Some (Fin q) => (q ?= 0)%Q
  | Some (Inf true) => Lt
  | Some (Inf false) => Gt
  end.

Fixpoint insertSorted {A} (cmp : A -> A -> comparison) (x : A) (l : list A) : list A :=
  match l with
  | [] => [x]
  | y :: l' =>
      match cmp x y with
      | Gt => y :: insertSorted cmp x l'
      | _ => x :: l
      end
  end.

(** [arr.sort(comparefn)] on a copy. The language fixes the result for a
    consistent comparator (the sort is stable); insertion from the right
    computes it. *)
Definition sort {A} (cmp : A -> A -> comparison) (l : list A) : list A :=
  fold_right (insertSorted cmp) [] l.

(** [(a, b) => b.Gold - a.Gold] *)
Definition byGoldDesc (a b : record) : comparison :=
  signOf (subtract (ToNumber (Get b (str "Gold"))) (ToNumber (Get a (str "Gold")))).

Definition top5Of (latest : list record) : list value :=
  List.map (fun r => Get r (str "Country")) (firstn 5 (sort byGoldDesc latest)).

(** [===] on primitives other than NaN; on these it coincides with the
    SameValueZero of [includes]. *)
Definition strictEq (a b : value) : bool :=
  match a, b with
  | VUndef, VUndef => true
  | VNum (Fin x), VNum (Fin y) => Qeq_bool x y
  | VNum (Inf s), VNum (Inf t) => Bool.eqb s t
  | VStr s, VStr t => streq s t
  | _, _ => false
  end.

Definition includes (l : list value) (c : value) : bool :=
  existsb (fun x => strictEq x c) l.

(** The updater passed to [setSelectedCountries]. *)
Definition toggleSelection (c : value) (prev : list value) : list value :=
  if includes prev c
  then List.filter (fun x => negb (strictEq x c)) prev
  else if (length prev <? 5)%nat then prev ++ [c] else prev.

Record state : Type := {
  view : jsstring;
  medalType : jsstring;
  hoveredRow : option value;
  loaded : bool;
  fetchError : option jsstring;
  latestData : list record;
  historyData : list point;
  countries : list value;
  selectedCountries : list value;
  lastUpdated : option value
}.

Definition initialState : state := {|
  view := str "table";
  medalType := str "Gold";
  hoveredRow := None;
  loaded := false;
  fetchError := None;
  latestData := [];
  historyData := [];
  countries := [];
  selectedCountries := [];
  lastUpdated := None
|}.

Definition toggleCountry (c : value) (s : state) : state := {|
  view := view s;
  medalType := medalType s;
  hoveredRow := hoveredRow s;
  loaded := loaded s;
  fetchError := fetchError s;
  latestData := latestData s;
  historyData := historyData s;
  countries := countries s;
  selectedCountries := toggleSelection c (selectedCountries s);
  lastUpdated := lastUpdated s
|}.

(** A settled [fetch]: the status and what [text()] settles to. *)
Record response : Type := {
  status : N;
  text : completion jsstring
}.

(** [res.ok]: a status in 200..299. *)
Definition ok (r : response) : bool :=
  ((200 <=? status r) && (status r <=? 299))%N.

Definition decimal (n : N) : jsstring :=
  str (NilEmpty.string_of_uint (N.to_uint n)).

(** [latest[0]?.Scrape_Date ?? null]; [None] is [null]. *)
Definition firstScrapeDate (latest : list record) : option value :=
  match latest with
  | [] => None
  | r :: _ =>
      match Get r (str "Scrape_Date") with
      | VUndef => None
      | v => Some v
      end
  end.

Section WithHost.
Variable host : Host.

(** The [try] block: the state it commits, or the error it throws.
    [fetched] is what [Promise.all] of the two fetches settles to. *)
Definition tryLoad (fetched : completion (response * response)) (s : state)
  : completion state :=
  do rs <- fetched;
  let latestRes := fst rs in
  let historyRes := snd rs in
  if negb (ok latestRes)
  then Throw (str "latest CSV: " ++ decimal (status latestRes))
  else if negb (ok historyRes)
  then Throw (str "history CSV: " ++ decimal (status historyRes))
  else
    do latestText <- text latestRes;
    do historyText <- text historyRes;
    do latest <- parseCSV latestText;
    do history <- parseCSV historyText;
    let chartHistory := buildHistoryChartData host history in
    let top5 := top5Of latest in
    Normal {|
      view := view s;
      medalType := medalType s;
      hoveredRow := hoveredRow s;
      loaded := loaded s;
      fetchError := fetchError s;
      latestData := latest;
      historyData := chartHistory;
      countries := top5;
      selectedCountries := firstn 3 top5;
      lastUpdated := firstScrapeDate latest
    |}.

Definition setFetchError (m : jsstring) (s : state) : state := {|
  view := view s;
  medalType := medalType s;
  hoveredRow := hoveredRow s;
  loaded := loaded s;
  fetchError := Some m;
  latestData := latestData s;
  historyData := historyData s;
  countries := countries s;
  selectedCountries := selectedCountries s;
  lastUpdated := lastUpdated s
|}.

Definition setLoaded (b : bool) (s : state) : state := {|
  view := view s;
  medalType := medalType s;
  hoveredRow := hoveredRow s;
  loaded := b;
  fetchError := fetchError s;
  latestData := latestData s;
  historyData := historyData s;
  countries := countries s;
  selectedCountries := selectedCountries s;
  lastUpdated := lastUpdated s
|}.

(** [loadData]: try, catch (store the message), finally (leave the
    loading state). *)
Definition loadData (fetched : completion (response * response)) (s : state) : state :=
  let s1 :=
    match tryLoad fetched s with
    | Normal s' => s'
    | Throw m => setFetchError m s
    end in
  setLoaded true s1.

End WithHost.

Definition setView (v : jsstring) (s : state) : state := {|
  view := v;
  medalType := medalType s;
  hoveredRow := hoveredRow s;
  loaded := loaded s;
  fetchError := fetchError s;
  latestData := latestData s;
  historyData := historyData s;
  countries := countries s;
  selectedCountries := selectedCountries s;
  lastUpdated := lastUpdated s
|}.

Definition setMedalType (m : jsstring) (s : state) : state := {|
  view := view s;
  medalType := m;
  hoveredRow := hoveredRow s;
  loaded := loaded s;
  fetchError := fetchError s;
  latestData := latestData s;
  historyData := historyData s;
  countries := countries s;
  selectedCountries := selectedCountries s;
  lastUpdated := lastUpdated s
|}.

Definition setHoveredRow (h : option value) (s : state) : state := {|
  view := view s;
  medalType := medalType s;
  hoveredRow := h;
  loaded := loaded s;
  fetchError := fetchError s;
  latestData := latestData s;
  historyData := historyData s;
  countries := countries s;
  selectedCountries := selectedCountries s;
  lastUpdated := lastUpdated s
|}.

(** What the user can do once the dashboard is shown: pick a view, pick
    a medal type, hover a table row, toggle a country. *)
Inductive step : state -> state -> Prop :=
| step_view (v : jsstring) (s : state) : step s (setView v s)
| step_medal (m : jsstring) (s : state) : step s (setMedalType m s)
| step_hover (h : option value) (s : state) : step s (setHoveredRow h s)
| step_toggle (c : value) (s : state) : step s (toggleCountry c s).

(** The three returns of the component: [if (!loaded)], then
    [if (fetchError)], then the dashboard. [render] tells only which of
    the three is taken. The element tree of the dashboard return is not
    part of it: [DashboardScreen] says that the component returned that
    tree, not that drawing it succeeds (a child component can still
    throw while it is rendered). *)
Inductive screen : Type := LoadingScreen | ErrorScreen | DashboardScreen.

Definition render (s : state) : screen :=
  if negb (loaded s) then LoadingScreen
  else match fetchError s with
       | Some (_ :: _) => ErrorScreen
       | _ => DashboardScreen
       end.

Inductive reachable (s0 : state) : state -> Prop :=
| reach_start : reachable s0 s0
| reach_step (s s' : state) : reachable s0 s -> step s s' -> reachable s0 s'.

End Dashboard.
Export Dashboard.

(* ------------------------------------------------------------------ *)
(** ** What the dashboard derives from its state *)

Module Views.

Definition LINE_COLORS : list jsstring :=
  List.map str
    ["#60c8ff"; "#f0c040"; "#c084fc"; "#f97316"; "#34d399";
     "#f43f5e"; "#a3e635"; "#38bdf8"; "#fb923c"; "#e879f9"]%string.

(** What [s + r.Gold] can produce: a Number (NaN is [None]) or a
    string. *)
Inductive sum : Type :=
| SNum (n : option number)
| SStr (s : jsstring).

(** [a + b] on Numbers. *)
Definition add (a b : option number) : option number :=
  match a, b with
  | Some (Fin x), Some (Fin y) => Some (Fin (x + y))
  | Some (Inf s), Some (Fin _) => Some (Inf s)
  | Some (Fin _), Some (Inf t) => Some (Inf t)
  | Some (Inf s), Some (Inf t) => if Bool.eqb s t then Some (Inf s) else None
  | _, _ => None
  end.

Section WithHost.
Variable host : Host.

(** ToString on a Number. *)
Definition numberText (n : option number) : jsstring :=
  match n with
  | None => str "NaN"
  | Some x => NumberToString host x
  end.

(** [s + v]: concatenation as soon as one side is a string, Number
    addition otherwise ([undefined] counts as NaN). *)
Definition plus (s : sum) (v : value) : sum :=
  match s, v with
  | SStr t, _ => SStr (t ++ ToPropertyKey host v)
  | SNum a, VStr t => SStr (numberText a ++ t)
  | SNum a, VNum n => SNum (add a (Some n))
  | SNum a, VUndef => SNum (add a None)
  end.

(** [latestData.reduce((s, r) => s + r[field], 0)] *)
Definition total (field : jsstring) (latestData : list record) : sum :=
  fold_left (fun s r => plus s (Get r field)) latestData (SNum (Some (Fin 0))).

Definition totalGold (s : state) : sum := total (str "Gold") (latestData s).
Definition totalSilver (s : state) : sum := total (str "Silver") (latestData s).
Definition totalBronze (s : state) : sum := total (str "Bronze") (latestData s).

End WithHost.

(** [countries.filter(c => selectedCountries.includes(c))]: the countries
    that get a card (and, in the same order, a line). *)
Definition cards (s : state) : list value :=
  List.filter (fun c => includes (selectedCountries s) c) (countries s).

(** [arr.indexOf(c)]; [None] is -1. *)
Fixpoint indexOf (l : list value) (c : value) : option nat :=
  match l with
  | [] => None
  | x :: r =>
      if strictEq x c then Some 0%nat
      else match indexOf r c with
           | Some i => Some (S i)
           | None => None
           end
  end.

(** [LINE_COLORS[i]] as a button or a line uses it; [None] is
    [undefined]. *)
Definition colourAt (i : nat) : option jsstring := nth_error LINE_COLORS i.

(** [LINE_COLORS[countries.indexOf(c)]] as a card uses it. *)
Definition cardColour (s : state) (c : value) : option jsstring :=
  match indexOf (countries s) c with
  | Some ci => nth_error LINE_COLORS ci
  | None => None
  end.

(** [latestData.find(r => r.Country === c)] *)
Definition cardRow (s : state) (c : value) : option record :=
  List.find (fun r => strictEq (Get r (str "Country")) c) (latestData s).

(** The controls the dashboard shows, each with what its handler does.
    Tabs are always there; medal buttons belong to the bar view, row
    hovering to the table view, country buttons (one per entry of
    [countries]) to the time-series view. *)
Inductive uiStep : state -> state -> Prop :=
| ui_tab (v : jsstring) (s : state) :
    render s = DashboardScreen ->
    In v (List.map str ["table"; "bar"; "timeseries"]%string) ->
    uiStep s (setView v s)
| ui_medal (t : jsstring) (s : state) :
    render s = DashboardScreen ->
    view s = str "bar" ->
    In t (List.map str ["Gold"; "Silver"; "Bronze"; "Total"]%string) ->
    uiStep s (setMedalType t s)
| ui_enter (row : record) (s : state) :
    render s = DashboardScreen ->
    view s = str "table" ->
    In row (latestData s) ->
    uiStep s (setHoveredRow (Some (Get row (str "Country"))) s)
| ui_leave (s : state) :
    render s = DashboardScreen ->
    view s = str "table" ->
    uiStep s (setHoveredRow None s)
| ui_country (i : nat) (c : value) (s : state) :
    render s = DashboardScreen ->
    view s = str "timeseries" ->
    nth_error (countries s) i = Some c ->
    uiStep s (toggleCountry c s).

Inductive uiReachable (s0 : state) : state -> Prop :=
| ui_start : uiReachable s0 s0
| ui_next (s s' : state) : uiReachable s0 s -> uiStep s s' -> uiReachable s0 s'.

End Views.
Export Views.

(* ------------------------------------------------------------------ *)
(** ** A host for the examples *)

Module Sample.

Definition monthNames : list jsstring :=
  List.map str
    ["Jan"; "Feb"; "Mar"; "Apr"; "May"; "Jun";
     "Jul"; "Aug"; "Sep"; "Oct"; "Nov"; "Dec"]%string.

(** Month name and day of a [YYYY-MM-DD] text. *)
Definition isoMonthDay (v : value) : option (jsstring * jsstring) :=
  match v with
  | VStr s =>
      let yyyy := firstn 4 s in
      let mm := firstn 2 (skipn 5 s) in
      let dd := firstn 2 (skipn 8 s) in
      if (length s =? 10)%nat && forallb isDigit (yyyy ++ mm ++ dd)
         && streq (firstn 1 (skipn 4 s)) (str "-")
         && streq (firstn 1 (skipn 7 s)) (str "-")
      then
        match nth_error monthNames (N.to_nat (decimalValue mm) - 1) with
        | Some name =>
            if ((1 <=? decimalValue mm) && (1 <=? decimalValue dd)
                && (decimalValue dd <=? 31))%N
            then Some (name, dd) else None
        | None => None
        end
      else None
  | _ => None
  end.

Definition isoLabel (v : value) : jsstring :=
  match isoMonthDay v with
  | Some (name, dd) => name ++ 32%N :: dd
  | None => str "Invalid Date"
  end.

(** Integers print in decimal; this host prints every other Number as
    ["NaN"], which no country name of the examples relies on. *)
Definition printNumber (n : number) : jsstring :=
  match n with
  | Fin (Qmake z 1) =>
      match z with
      | Zneg p => str "-" ++ decimal (Npos p)
      | _ => decimal (Z.to_N z)
      end
  | _ => str "NaN"
  end.

Definition isoLabel_spaced (v : value) : existsb (N.eqb 32) (isoLabel v) = true :=
  match isoMonthDay v as o
    return existsb (N.eqb 32)
             (match o with
              | Some (name, dd) => name ++ 32%N :: dd
              | None => str "Invalid Date"
              end) = true
  with
  | Some (name, dd) =>
      eq_trans (existsb_app (N.eqb 32) name (32%N :: dd))
               (orb_true_r (existsb (N.eqb 32) name))
  | None => eq_refl
  end.

Definition sampleHost : Host := {|
  formatDate := isoLabel;
  NumberToString := printNumber;
  formatDate_spaced := isoLabel_spaced
|}.

Definition newline : jsstring := [LF].

Definition latestCsv : jsstring :=
  str "Country,Rank,Gold,Silver,Bronze,Total,Scrape_Date" ++ newline ++
  str "Norway,1,5,2,1,8,2026-02-10" ++ newline ++
  str "Italy,2,3,4,0,7,2026-02-10" ++ newline ++
  str "Germany,3,3,1,1,5,2026-02-10" ++ newline ++
  str "Sweden,4,2,0,2,4,2026-02-10" ++ newline ++
  str "Japan,5,1,1,1,3,2026-02-10" ++ newline ++
  str "Canada,6,4,0,0,4,2026-02-10" ++ newline.

Definition historyCsv : jsstring :=
  str "Scrape_Date,Country,Gold" ++ newline ++
  str "2026-02-09,Norway,3" ++ newline ++
  str "2026-02-09,Sweden,2" ++ newline ++
  str "2026-02-10,Norway,5" ++ newline.

Definition okResponse (body : jsstring) : response :=
  {| status := 200; text := Normal body |}.

Definition sampleFetched : completion (response * response) :=
  Normal (okResponse latestCsv, okResponse historyCsv).

(** The dashboard once the sample data is loaded. *)
Definition sampleLoaded : state :=
  loadData sampleHost sampleFetched initialState.

Definition historyRow (date country : string) (gold : Z) : record :=
  [(str "Scrape_Date", VStr (str date));
   (str "Country", VStr (str country));
   (str "Gold", VNum (Fin (inject_Z gold)))].

(** Five countries selected. *)
Definition fiveSelected : state :=
  toggleCountry (VStr (str "Sweden"))
    (toggleCountry (VStr (str "Germany")) sampleLoaded).

(** A history record whose country is spelled [__proto__]. *)
Definition protoRow : record := historyRow "2026-02-09" "__proto__" 3.

End Sample.
Export Sample.

(* ------------------------------------------------------------------ *)
(** ** Notions used to state the properties *)

Module Notions.

(** The value of the last entry for [k], if any. *)
Fixpoint lastEntry {A} (k : jsstring) (entries : list (jsstring * A)) (d : option A)
  : option A :=
  match entries with
  | [] => d
  | (k', v) :: r => lastEntry k r (if streq k' k then Some v else d)
  end.

(** The three line endings the parser normalizes. *)
Definition lineBreak (nl : jsstring) : Prop :=
  nl = [LF] \/ nl = [CR] \/ nl = [CR; LF].

Definition noLineBreak (s : jsstring) : bool :=
  forallb (fun c => negb ((c =? LF) || (c =? CR))%N) s.

Definition blank (s : jsstring) : bool := forallb isWhiteSpace s.

Definition nonBlank (s : jsstring) : bool :=
  existsb (fun c => negb (isWhiteSpace c)) s.

Section PivotNotions.
Variable host : Host.

Definition labelOf (r : record) : jsstring :=
  formatDate host (Get r (str "Scrape_Date")).

Definition countryKey (r : record) : jsstring :=
  ToPropertyKey host (Get r (str "Country")).

Definition goldOf (r : record) : value := Get r (str "Gold").

(** The point of one label: start from [{ date: label }] and write, in
    input order, the Gold value of every record carrying that label
    under the record's country. *)
Definition pointOf (label : jsstring) (rows : list record) : point :=
  fold_left
    (fun p r =>
       if streq (labelOf r) label then Put p (countryKey r) (goldOf r) else p)
    rows [(str "date", VStr label)].

(** What one loop iteration does to the point stored under a label. *)
Definition stepPoint (l : jsstring) (o : option point) (r : record) : option point :=
  if streq (labelOf r) l
  then Some (Put (match o with
                  | Some p => p
                  | None => [(str "date", VStr l)]
                  end) (countryKey r) (goldOf r))
  else o.

End PivotNotions.

(** The distinct elements of a list, each at its first occurrence. *)
Fixpoint firstSeen (l : list jsstring) : list jsstring :=
  match l with
  | [] => []
  | x :: r => x :: List.filter (fun y => negb (streq y x)) (firstSeen r)
  end.

Definition mem (x : jsstring) (l : list jsstring) : bool :=
  existsb (streq x) l.

(** A value that is a medal count: an integer Number that binary64 holds
    exactly. *)
Definition isCount (v : value) (z : Z) : Prop :=
  exists q, v = VNum (Fin q) /\ (q == inject_Z z)%Q /\ (0 <= z < 2 ^ 53)%Z.

Definition hasGoldCount (r : record) : Prop :=
  exists z, isCount (Get r (str "Gold")) z.

Definition goldCount (r : record) : Z :=
  match Get r (str "Gold") with
  | VNum (Fin q) => Qfloor q
  | _ => 0%Z
  end.

Definition descendingBy {A} (key : A -> Z) (l : list A) : Prop :=
  StronglySorted (fun a b => (key b <= key a)%Z) l.

(** Same elements in the same relative order, some possibly left out. *)
Inductive subseq {A} : list A -> list A -> Prop :=
| subseq_nil : subseq [] []
| subseq_keep (x : A) (l1 l2 : list A) : subseq l1 l2 -> subseq (x :: l1) (x :: l2)
| subseq_drop (x : A) (l1 l2 : list A) : subseq l1 l2 -> subseq l1 (x :: l2).

(** No two entries name the same country. *)
Fixpoint distinctCountries (l : list value) : bool :=
  match l with
  | [] => true
  | x :: r => negb (includes r x) && distinctCountries r
  end.

End Notions.
Export Notions.

(* ------------------------------------------------------------------ *)
(** ** Further notions *)

Module MoreNotions.

(** A string as [trim] leaves it, free of commas and line breaks. *)
Definition clean (s : jsstring) : Prop :=
  trim s = s /\ ~ In COMMA s /\ noLineBreak s = true.

Definition fieldCount (field : jsstring) (r : record) : Z :=
  match Get r field with
  | VNum (Fin q) => Qfloor q
  | _ => 0%Z
  end.

Definition sumZ (l : list Z) : Z := fold_right Z.add 0%Z l.

(** Every entry of [l] also occurs in [m]. *)
Definition allIncluded (l m : list value) : bool :=
  forallb (fun x => includes m x) l.

(** What the buttons keep true of a state. *)
Definition wellSelected (s : state) : Prop :=
  (length (countries s) <= 5)%nat
  /\ distinctCountries (selectedCountries s) = true
  /\ allIncluded (selectedCountries s) (countries s) = true.

(** Latest records already in rank order. *)
Definition medalRow (country : string) (gold : Z) : record :=
  [(str "Country", VStr (str country)); (str "Gold", VNum (Fin (inject_Z gold)))].

Definition rankedRows : list record :=
  [medalRow "Norway" 5; medalRow "Canada" 4; medalRow "Italy" 3].

(** The time-series view of the loaded sample. *)
Definition sampleTimeseries : state := setView (str "timeseries") sampleLoaded.

(** A latest file with one Gold cell that is not a number. *)
Definition unrankedCsv : jsstring :=
  str "Country,Gold" ++ newline ++
  str "A,1" ++ newline ++
  str "B,x" ++ newline ++
  str "C,2".

Definition unrankedLoaded : state :=
  loadData sampleHost (Normal (okResponse unrankedCsv, okResponse historyCsv))
    initialState.

(** The header names of a text, as [parseCSV] reads them: the trimmed
    comma-separated pieces of the first line of the trimmed text, line
    breaks normalized. *)
Definition headersOf (text : jsstring) : list jsstring :=
  List.map trim (split COMMA (hd [] (split LF (normalize text)))).

(** The data lines of a text, as [parseCSV] reads them: the lines after
    the first that [filter(l => l.trim())] keeps. *)
Definition dataLinesOf (text : jsstring) : list jsstring :=
  List.filter (fun l => truthyString (trim l)) (tl (split LF (normalize text))).

(** A file whose two columns have the same header name. *)
Definition duplicateHeaderCsv : jsstring :=
  str "a,a" ++ newline ++ str "5,x".

End MoreNotions.
Export MoreNotions.

(* ------------------------------------------------------------------ *)
(** ** Facts about strings and objects *)

Module StringFacts.

Lemma streq_refl (a : jsstring) : streq a a = true.
Proof.
  induction a as [|c a IH]; simpl; [reflexivity|].
  now rewrite N.eqb_refl, IH.
Qed.

Lemma streq_eq (a b : jsstring) : streq a b = true <-> a = b.
Proof.
  split; [|intros ->; apply streq_refl].
  revert b; induction a as [|c a IH]; intros [|d b]; simpl; try discriminate; auto.
  intros H. apply andb_true_iff in H as [Hc Hr].
  apply N.eqb_eq in Hc. apply IH in Hr. congruence.
Qed.

Lemma streq_neq (a b : jsstring) : streq a b = false <-> a <> b.
Proof.
  destruct (streq a b) eqn:E.
  - apply streq_eq in E. split; [discriminate | congruence].
  - split; [|reflexivity]. intros _ H. apply streq_eq in H. congruence.
Qed.

Lemma streq_sym (a b : jsstring) : streq a b = streq b a.
Proof.
  destruct (streq a b) eqn:E; symmetry.
  - apply streq_eq in E. subst. apply streq_refl.
  - apply streq_neq. apply streq_neq in E. congruence.
Qed.

Lemma split_nonempty (sep : N) (s : jsstring) : split sep s <> [].
Proof.
  destruct s as [|c r]; simpl; [discriminate|].
  destruct (c =? sep)%N; [discriminate|].
  destruct (split sep r); discriminate.
Qed.


Lemma dropWhile_app_stop (p : N -> bool) (a b : jsstring) :
  existsb (fun c => negb (p c)) a = true ->
  dropWhile p (a ++ b) = dropWhile p a ++ b.
Proof.
  induction a as [|c a IH]; simpl; [discriminate|].
  destruct (p c); simpl; auto.
Qed.

Lemma dropWhile_all (p : N -> bool) (a b : jsstring) :
  forallb p a = true -> dropWhile p (a ++ b) = dropWhile p b.
Proof.
  induction a as [|c a IH]; simpl; [reflexivity|].
  destruct (p c); simpl; [auto | discriminate].
Qed.



Lemma existsb_dropWhile (p : N -> bool) (s : jsstring) :
  existsb (fun c => negb (p c)) s = true ->
  existsb (fun c => negb (p c)) (dropWhile p s) = true.
Proof.
  induction s as [|d s IH]; simpl; [discriminate|].
  destruct (p d) eqn:P; simpl; [assumption|]. now rewrite P.
Qed.

Lemma forallb_dropWhile (p q : N -> bool) (s : jsstring) :
  forallb q s = true -> forallb q (dropWhile p s) = true.
Proof.
  induction s as [|d s IH]; simpl; [reflexivity|].
  intros H. apply andb_true_iff in H as [Hd Hs].
  destruct (p d); simpl; [auto | now rewrite Hd, Hs].
Qed.

Lemma existsb_rev {A} (f : A -> bool) (l : list A) :
  existsb f (rev l) = existsb f l.
Proof.
  induction l as [|x l IH]; simpl; [reflexivity|].
  rewrite existsb_app, IH. simpl. rewrite orb_false_r. apply orb_comm.
Qed.

Lemma forallb_rev {A} (f : A -> bool) (l : list A) :
  forallb f (rev l) = forallb f l.
Proof.
  induction l as [|x l IH]; simpl; [reflexivity|].
  rewrite forallb_app, IH. simpl. rewrite andb_true_r. apply andb_comm.
Qed.

End StringFacts.
Import StringFacts.

Module ObjectFacts.

Lemma obj_get_set_same {A} (k : jsstring) (v : A) (o : object A) :
  obj_get (obj_set k v o) k = Some v.
Proof.
  induction o as [|[k' v'] o IH]; simpl.
  - now rewrite streq_refl.
  - destruct (streq k' k) eqn:E; simpl; rewrite E; auto.
Qed.

Lemma obj_get_set_other {A} (k k' : jsstring) (v : A) (o : object A) :
  k <> k' -> obj_get (obj_set k v o) k' = obj_get o k'.
Proof.
  intros Hne. induction o as [|[k0 v0] o IH]; simpl.
  - apply streq_neq in Hne. now rewrite Hne.
  - destruct (streq k0 k) eqn:E; simpl.
    + apply streq_eq in E. subst k0.
      apply streq_neq in Hne. now rewrite Hne.
    + destruct (streq k0 k'); auto.
Qed.

Lemma obj_set_keys_present {A} (k : jsstring) (v : A) (o : object A) (w : A) :
  obj_get o k = Some w -> List.map fst (obj_set k v o) = List.map fst o.
Proof.
  induction o as [|[k0 v0] o IH]; simpl; [discriminate|].
  destruct (streq k0 k) eqn:E; simpl; [reflexivity|].
  intros H. now rewrite IH.
Qed.

Lemma obj_set_keys_fresh {A} (k : jsstring) (v : A) (o : object A) :
  obj_get o k = None -> List.map fst (obj_set k v o) = List.map fst o ++ [k].
Proof.
  induction o as [|[k0 v0] o IH]; simpl; [reflexivity|].
  destruct (streq k0 k) eqn:E; simpl; [discriminate|].
  intros H. now rewrite IH.
Qed.



Lemma obj_get_fold_set {A} (entries : list (jsstring * A)) (o : object A) (k : jsstring) :
  obj_get (fold_left (fun o kv => obj_set (fst kv) (snd kv) o) entries o) k
  = lastEntry k entries (obj_get o k).
Proof.
  revert o. induction entries as [|[k' v] r IH]; intros o; simpl; [reflexivity|].
  rewrite IH. f_equal.
  destruct (streq k' k) eqn:E.
  - apply streq_eq in E. subst. apply obj_get_set_same.
  - apply streq_neq in E. now apply obj_get_set_other.
Qed.



Lemma lastEntry_app {A} (k : jsstring) (e1 e2 : list (jsstring * A)) (d : option A) :
  lastEntry k (e1 ++ e2) d = lastEntry k e2 (lastEntry k e1 d).
Proof.
  revert d. induction e1 as [|[k' v'] r IH]; intros d; simpl; auto.
Qed.

End ObjectFacts.
Import ObjectFacts.

(* ------------------------------------------------------------------ *)
(** ** The CSV parser *)

Module ParserFacts.

Lemma trimStart_app_nonBlank (a b : jsstring) :
  nonBlank a = true -> trimStart (a ++ b) = trimStart a ++ b.
Proof. apply dropWhile_app_stop. Qed.

Lemma trimEnd_app_blank (a b : jsstring) :
  blank b = true -> trimEnd (a ++ b) = trimEnd a.
Proof.
  intros Hb. unfold trimEnd. rewrite rev_app_distr.
  rewrite dropWhile_all; [reflexivity|].
  unfold blank in Hb. now rewrite forallb_rev.
Qed.

Lemma trimEnd_app_nonBlank (a b : jsstring) :
  nonBlank b = true -> trimEnd (a ++ b) = a ++ trimEnd b.
Proof.
  intros Hb. unfold trimEnd. rewrite rev_app_distr.
  rewrite dropWhile_app_stop.
  - now rewrite rev_app_distr, rev_involutive.
  - unfold nonBlank in Hb. now rewrite existsb_rev.
Qed.

Lemma blank_trimStart (s : jsstring) : blank s = true -> trimStart s = [].
Proof.
  intros H. unfold trimStart.
  rewrite <- (app_nil_r s). now rewrite dropWhile_all.
Qed.

Lemma blank_trim (s : jsstring) : blank s = true -> trim s = [].
Proof. intros H. unfold trim. now rewrite blank_trimStart. Qed.

Lemma nonBlank_trimStart (s : jsstring) :
  nonBlank s = true -> nonBlank (trimStart s) = true.
Proof. apply existsb_dropWhile. Qed.

Lemma nonBlank_trimEnd (s : jsstring) :
  nonBlank s = true -> nonBlank (trimEnd s) = true.
Proof.
  intros H. unfold trimEnd, nonBlank. rewrite existsb_rev.
  apply existsb_dropWhile. now rewrite existsb_rev.
Qed.

Lemma nonBlank_trim (s : jsstring) :
  nonBlank s = true -> truthyString (trim s) = true.
Proof.
  intros H. apply nonBlank_trimStart, nonBlank_trimEnd in H.
  fold (trim s) in H. destruct (trim s); [discriminate | reflexivity].
Qed.

Lemma noLineBreak_trimStart (s : jsstring) :
  noLineBreak s = true -> noLineBreak (trimStart s) = true.
Proof. apply forallb_dropWhile. Qed.

Lemma noLineBreak_trimEnd (s : jsstring) :
  noLineBreak s = true -> noLineBreak (trimEnd s) = true.
Proof.
  intros H. unfold trimEnd, noLineBreak. rewrite forallb_rev.
  apply forallb_dropWhile. now rewrite forallb_rev.
Qed.

Lemma lineBreak_blank (nl : jsstring) : lineBreak nl -> blank nl = true.
Proof. intros [-> | [-> | ->]]; reflexivity. Qed.

Lemma noLineBreak_cons (c : N) (s : jsstring) :
  noLineBreak (c :: s) = true -> c <> LF /\ c <> CR /\ noLineBreak s = true.
Proof.
  unfold noLineBreak. simpl. intros H.
  apply andb_true_iff in H as [Hc Hs].
  apply negb_true_iff, orb_false_iff in Hc as [H1 H2].
  apply N.eqb_neq in H1, H2. auto.
Qed.

Lemma replaceCRLF_app (a b : jsstring) :
  noLineBreak a = true -> replaceCRLF (a ++ b) = a ++ replaceCRLF b.
Proof.
  induction a as [|c a IH]; [reflexivity|].
  intros H. apply noLineBreak_cons in H as (_ & Hcr & Ha).
  apply N.eqb_neq in Hcr.
  change ((c :: a) ++ b) with (c :: (a ++ b)). simpl replaceCRLF.
  rewrite Hcr. simpl. rewrite (IH Ha).
  destruct (a ++ b) eqn:E; [|reflexivity].
  apply app_eq_nil in E as [-> ->]. reflexivity.
Qed.

Lemma replaceCR_noLineBreak (a : jsstring) :
  noLineBreak a = true -> replaceCR a = a.
Proof.
  induction a as [|c a IH]; [reflexivity|].
  intros H. apply noLineBreak_cons in H as (_ & Hcr & Ha).
  apply N.eqb_neq in Hcr. simpl. now rewrite Hcr, (IH Ha).
Qed.

Lemma replaceCRLF_noLineBreak (a : jsstring) :
  noLineBreak a = true -> replaceCRLF a = a.
Proof.
  intros H. rewrite <- (app_nil_r a) at 1.
  rewrite (replaceCRLF_app a [] H). apply app_nil_r.
Qed.

(** A line, a line ending, and a rest: normalization leaves the line, one
    line feed, and the normalized rest, unless a lone carriage return
    meets a line feed that opens the rest. *)
Lemma normalize_line (a nl b : jsstring) :
  noLineBreak a = true -> lineBreak nl ->
  (nl = [CR] -> forall r, b <> LF :: r) ->
  replaceCR (replaceCRLF (a ++ nl ++ b))
  = a ++ LF :: replaceCR (replaceCRLF b).
Proof.
  intros Ha Hnl Hb. rewrite (replaceCRLF_app a (nl ++ b) Ha).
  unfold replaceCR at 1. rewrite map_app. fold (replaceCR a).
  rewrite (replaceCR_noLineBreak a Ha). f_equal.
  destruct Hnl as [-> | [-> | ->]].
  - destruct b; reflexivity.
  - destruct b as [|c b]; [reflexivity|].
    simpl app. simpl replaceCRLF.
    destruct (c =? LF)%N eqn:E.
    + apply N.eqb_eq in E. subst c. now elim (Hb eq_refl b).
    + reflexivity.
  - reflexivity.
Qed.

Lemma normalize_last_line (a : jsstring) :
  noLineBreak a = true -> replaceCR (replaceCRLF a) = a.
Proof.
  intros H. now rewrite (replaceCRLF_noLineBreak a H), (replaceCR_noLineBreak a H).
Qed.

Lemma split_line (a b : jsstring) :
  noLineBreak a = true -> split LF (a ++ LF :: b) = a :: split LF b.
Proof.
  induction a as [|c a IH]; [reflexivity|].
  intros H. apply noLineBreak_cons in H as (Hlf & _ & Ha).
  apply N.eqb_neq in Hlf. simpl. now rewrite Hlf, (IH Ha).
Qed.

Lemma split_last_line (a : jsstring) :
  noLineBreak a = true -> split LF a = [a].
Proof.
  induction a as [|c a IH]; [reflexivity|].
  intros H. apply noLineBreak_cons in H as (Hlf & _ & Ha).
  apply N.eqb_neq in Hlf. simpl. now rewrite Hlf, (IH Ha).
Qed.

Lemma lines_step (a nl b : jsstring) :
  noLineBreak a = true -> lineBreak nl ->
  (nl = [CR] -> forall r, b <> LF :: r) ->
  split LF (replaceCR (replaceCRLF (a ++ nl ++ b)))
  = a :: split LF (replaceCR (replaceCRLF b)).
Proof.
  intros Ha Hnl Hb.
  now rewrite (normalize_line a nl b Ha Hnl Hb), (split_line _ _ Ha).
Qed.

Lemma lines_last (a : jsstring) :
  noLineBreak a = true -> split LF (replaceCR (replaceCRLF a)) = [a].
Proof.
  intros Ha. now rewrite (normalize_last_line a Ha), (split_last_line a Ha).
Qed.

Lemma nonBlank_noLineBreak_head (s : jsstring) :
  noLineBreak s = true -> forall r, s <> LF :: r.
Proof.
  intros H r ->. apply noLineBreak_cons in H as (Hlf & _). now apply Hlf.
Qed.

Lemma nonBlank_negb_blank (s : jsstring) : nonBlank s = negb (blank s).
Proof.
  unfold nonBlank, blank. induction s as [|c s IH]; simpl; [reflexivity|].
  rewrite IH. now destruct (isWhiteSpace c).
Qed.

Lemma truthy_trim_blank (l : jsstring) : truthyString (trim l) = negb (blank l).
Proof.
  destruct (blank l) eqn:B.
  - now rewrite (blank_trim l B).
  - apply nonBlank_trim. now rewrite nonBlank_negb_blank, B.
Qed.

Lemma parseCSV_lines (text : jsstring) (hl : jsstring) (lines : list jsstring) :
  split LF (normalize text) = hl :: lines ->
  parseCSV text =
  Normal (List.map (lineRecord (List.map trim (split COMMA hl)))
            (List.filter (fun l => truthyString (trim l)) lines)).
Proof. intros H. unfold parseCSV. now rewrite H. Qed.

Lemma nth_error_mapi_from {A B} (f : A -> nat -> B) (l : list A) (k i : nat) :
  nth_error (mapi_from f k l) i
  = option_map (fun x => f x (k + i)%nat) (nth_error l i).
Proof.
  revert k i. induction l as [|x l IH]; intros k [|i]; simpl; try reflexivity.
  - now rewrite Nat.add_0_r.
  - rewrite IH. now rewrite Nat.add_succ_r.
Qed.

Lemma mapi_from_app {A B} (f : A -> nat -> B) (l1 l2 : list A) (k : nat) :
  mapi_from f k (l1 ++ l2)
  = mapi_from f k l1 ++ mapi_from f (k + length l1) l2.
Proof.
  revert k. induction l1 as [|x l1 IH]; intros k; simpl.
  - now rewrite Nat.add_0_r.
  - rewrite IH. now rewrite Nat.add_succ_r.
Qed.


Lemma valueAt_trim (pieces : list jsstring) (i : nat) :
  valueAt (List.map trim pieces) i = trim (nth i pieces []).
Proof.
  unfold valueAt. rewrite nth_error_map.
  destruct (nth_error pieces i) as [v|] eqn:E; simpl.
  - now rewrite (nth_error_nth pieces i [] E).
  - apply nth_error_None in E. now rewrite nth_overflow.
Qed.



Lemma coerce_number_iff (val : jsstring) :
  isNumber (coerce val) = true <-> val <> [] /\ isNaN (Number val) = false.
Proof.
  unfold coerce. destruct (Number val) as [n|]; simpl.
  - destruct val as [|c r]; simpl.
    + split; [discriminate | intros [H _]; now elim H].
    + split; [intros _; split; [discriminate | reflexivity] | reflexivity].
  - split; [discriminate | intros [_ H]; discriminate H].
Qed.

Lemma coerce_string (val : jsstring) :
  isNumber (coerce val) = false -> coerce val = VStr val.
Proof.
  unfold coerce. destruct (Number val) as [n|]; [|reflexivity].
  destruct (streq val []); [reflexivity | discriminate].
Qed.

Lemma coerce_defined (val : jsstring) : coerce val <> VUndef.
Proof.
  unfold coerce. destruct (Number val) as [n|]; [|discriminate].
  destruct (streq val []); discriminate.
Qed.

Lemma digit_not_space (c : N) : isDigit c = true -> isWhiteSpace c = false.
Proof.
  unfold isDigit, isWhiteSpace. intros H.
  apply andb_true_iff in H as [H1 H2].
  apply N.leb_le in H1, H2.
  replace (c <=? 13)%N with false by (symmetry; apply N.leb_gt; lia).
  replace (c =? 32)%N with false by (symmetry; apply N.eqb_neq; lia).
  replace (c =? 160)%N with false by (symmetry; apply N.eqb_neq; lia).
  replace (c =? 5760)%N with false by (symmetry; apply N.eqb_neq; lia).
  replace (8192 <=? c)%N with false by (symmetry; apply N.leb_gt; lia).
  replace (c =? 8232)%N with false by (symmetry; apply N.eqb_neq; lia).
  replace (c =? 8233)%N with false by (symmetry; apply N.eqb_neq; lia).
  replace (c =? 8239)%N with false by (symmetry; apply N.eqb_neq; lia).
  replace (c =? 8287)%N with false by (symmetry; apply N.eqb_neq; lia).
  replace (c =? 12288)%N with false by (symmetry; apply N.eqb_neq; lia).
  replace (c =? 65279)%N with false by (symmetry; apply N.eqb_neq; lia).
  now rewrite andb_false_r.
Qed.

Lemma dropWhile_digits (ds : jsstring) :
  forallb isDigit ds = true -> dropWhile isWhiteSpace ds = ds.
Proof.
  destruct ds as [|c r]; simpl; [reflexivity|].
  intros H. apply andb_true_iff in H as [Hc _].
  now rewrite (digit_not_space c Hc).
Qed.

Lemma trim_digits (ds : jsstring) : forallb isDigit ds = true -> trim ds = ds.
Proof.
  intros H. unfold trim, trimStart, trimEnd.
  rewrite (dropWhile_digits ds H).
  rewrite dropWhile_digits by now rewrite forallb_rev.
  apply rev_involutive.
Qed.

Lemma spanDigits_digits (ds : jsstring) :
  forallb isDigit ds = true -> spanDigits ds = (ds, []).
Proof.
  induction ds as [|c r IH]; simpl; [reflexivity|].
  intros H. apply andb_true_iff in H as [Hc Hr].
  now rewrite Hc, (IH Hr).
Qed.

(** A non-empty run of decimal digits is a number. *)
Lemma Number_digits (c : N) (r : jsstring) :
  forallb isDigit (c :: r) = true ->
  Number (c :: r) = Some (scaled (c :: r) 0).
Proof.
  intros H. unfold Number. rewrite (trim_digits (c :: r) H).
  pose proof H as H'. simpl in H'. apply andb_true_iff in H' as [Hc Hr].
  assert (Hc' := Hc). unfold isDigit in Hc'.
  apply andb_true_iff in Hc' as [C1 C2]. apply N.leb_le in C1, C2.
  assert (P : parseNonDecimal (c :: r) = None).
  { unfold parseNonDecimal. destruct r as [|x [|y ds]]; try reflexivity.
    destruct (c =? 48)%N; [|reflexivity].
    simpl in Hr. apply andb_true_iff in Hr as [Hx _].
    unfold isDigit in Hx. apply andb_true_iff in Hx as [X1 X2].
    apply N.leb_le in X1, X2.
    replace (x =? 120)%N with false by (symmetry; apply N.eqb_neq; lia).
    replace (x =? 88)%N with false by (symmetry; apply N.eqb_neq; lia).
    replace (x =? 111)%N with false by (symmetry; apply N.eqb_neq; lia).
    replace (x =? 79)%N with false by (symmetry; apply N.eqb_neq; lia).
    replace (x =? 98)%N with false by (symmetry; apply N.eqb_neq; lia).
    replace (x =? 66)%N with false by (symmetry; apply N.eqb_neq; lia).
    reflexivity. }
  rewrite P.
  replace (c =? 43)%N with false by (symmetry; apply N.eqb_neq; lia).
  replace (c =? 45)%N with false by (symmetry; apply N.eqb_neq; lia).
  unfold parseUnsignedDecimal.
  replace (streq (c :: r) (str "Infinity")) with false.
  - now rewrite (spanDigits_digits (c :: r) H).
  - symmetry. simpl.
    replace (c =? 73)%N with false by (symmetry; apply N.eqb_neq; lia).
    reflexivity.
Qed.

Lemma coerce_digits (c : N) (r : jsstring) :
  forallb isDigit (c :: r) = true ->
  coerce (c :: r) = VNum (scaled (c :: r) 0).
Proof. intros H. unfold coerce. now rewrite (Number_digits c r H). Qed.

Lemma lastEntry_Some {A} (k : jsstring) (entries : list (jsstring * A)) (d : option A) (v : A) :
  lastEntry k entries d = Some v ->
  d = Some v \/ exists i, nth_error entries i = Some (k, v).
Proof.
  revert d. induction entries as [|[k' v'] r IH]; intros d; simpl; [now left|].
  intros H. apply IH in H as [H | [i H]].
  - destruct (streq k' k) eqn:E; [|now left].
    apply streq_eq in E. subst k'. injection H as ->.
    right. now exists 0%nat.
  - right. now exists (S i).
Qed.

End ParserFacts.
Import ParserFacts.

Module ParserClaims.

(** C9. [parseCSV] is total: on every text it returns a list of records
    and throws nothing. *)
Theorem parseCSV_total (text : jsstring) :
  exists records, parseCSV text = Normal records.
Proof.
  destruct (split LF (normalize text)) as [|hl lines] eqn:E.
  - now apply split_nonempty in E.
  - eexists. exact (parseCSV_lines text hl lines E).
Qed.

Lemma trim_header_line_rest (h rest : jsstring) :
  nonBlank h = true ->
  trim (h ++ rest) = trimEnd (trimStart h ++ rest).
Proof. intros H. unfold trim. now rewrite trimStart_app_nonBlank. Qed.

Lemma blank_app (a b : jsstring) :
  blank a = true -> blank b = true -> blank (a ++ b) = true.
Proof. intros Ha Hb. unfold blank in *. now rewrite forallb_app, Ha, Hb. Qed.

Lemma one_record (d : jsstring) (blanks : list jsstring) :
  nonBlank d = true ->
  Forall (fun l => blank l = true) blanks ->
  List.filter (fun l => truthyString (trim l)) (blanks ++ [d]) = [d].
Proof.
  intros Hd Hb. induction Hb as [|w ws Hw _ IH]; simpl.
  - now rewrite (nonBlank_trim d Hd).
  - now rewrite (blank_trim w Hw).
Qed.

(** C7. A header line, one data line and one white-space-only line, in
    either order and with any of the three line endings, parse to exactly
    one record: the one built from the data line. On every text, the
    records are those of the lines after the first that are not
    white-space-only, in order. *)
Theorem blank_line_emits_no_record (h d w nl1 nl2 : jsstring) :
  lineBreak nl1 -> lineBreak nl2 ->
  noLineBreak h = true -> nonBlank h = true ->
  noLineBreak d = true -> nonBlank d = true ->
  noLineBreak w = true -> blank w = true ->
  let headers := List.map trim (split COMMA (trimStart h)) in
  parseCSV (h ++ nl1 ++ d ++ nl2 ++ w) = Normal [lineRecord headers (trimEnd d)]
  /\ parseCSV (h ++ nl1 ++ w ++ nl2 ++ d) = Normal [lineRecord headers (trimEnd d)]
  /\ (forall text, exists hl lines,
        split LF (normalize text) = hl :: lines
        /\ parseCSV text
           = Normal (List.map (lineRecord (List.map trim (split COMMA hl)))
                       (List.filter (fun l => negb (blank l)) lines))).
Proof.
  intros Hnl1 Hnl2 Hh Hhn Hd Hdn Hw Hwb headers.
  cut (parseCSV (h ++ nl1 ++ d ++ nl2 ++ w) = Normal [lineRecord headers (trimEnd d)]
       /\ parseCSV (h ++ nl1 ++ w ++ nl2 ++ d) = Normal [lineRecord headers (trimEnd d)]).
  { intros [P1 P2]. split; [exact P1|]. split; [exact P2|].
    intros text. destruct (split LF (normalize text)) as [|hl lines] eqn:E.
    - now apply split_nonempty in E.
    - exists hl, lines. split; [reflexivity|].
      rewrite (parseCSV_lines text hl lines E). do 2 f_equal.
      apply filter_ext. intros l. apply truthy_trim_blank. }
  pose proof (noLineBreak_trimStart h Hh) as Hh'.
  pose proof (noLineBreak_trimEnd d Hd) as Hd'.
  pose proof (nonBlank_trimEnd d Hdn) as Hdn'.
  assert (Hd0 : forall r, trimEnd d <> LF :: r).
  { apply nonBlank_noLineBreak_head, Hd'. }
  split.
  - assert (E : split LF (normalize (h ++ nl1 ++ d ++ nl2 ++ w))
                = [trimStart h; trimEnd d]).
    { unfold normalize. rewrite (trim_header_line_rest h _ Hhn).
      replace (trimStart h ++ nl1 ++ d ++ nl2 ++ w)
        with (((trimStart h ++ nl1) ++ d) ++ (nl2 ++ w))
        by now rewrite <- !app_assoc.
      rewrite trimEnd_app_blank
        by (apply blank_app; [now apply lineBreak_blank | exact Hwb]).
      rewrite (trimEnd_app_nonBlank _ d Hdn), <- app_assoc.
      rewrite (lines_step (trimStart h) nl1 (trimEnd d) Hh' Hnl1 (fun _ => Hd0)).
      now rewrite (lines_last _ Hd'). }
    rewrite (parseCSV_lines _ _ _ E).
    simpl. now rewrite (nonBlank_trim _ Hdn').
  - assert (T : trim (h ++ nl1 ++ w ++ nl2 ++ d)
                = trimStart h ++ nl1 ++ w ++ nl2 ++ trimEnd d).
    { rewrite (trim_header_line_rest h _ Hhn).
      replace (trimStart h ++ nl1 ++ w ++ nl2 ++ d)
        with ((trimStart h ++ nl1 ++ w ++ nl2) ++ d)
        by now rewrite <- !app_assoc.
      rewrite (trimEnd_app_nonBlank _ d Hdn). now rewrite <- !app_assoc. }
    assert (C : (w = [] /\ nl1 = [CR] /\ nl2 = [LF]) \/
                (nl1 = [CR] -> forall r, w ++ nl2 ++ trimEnd d <> LF :: r)).
    { destruct w as [|c w'].
      - destruct Hnl2 as [-> | [-> | ->]].
        + destruct Hnl1 as [-> | [-> | ->]];
            [right; intros E; discriminate E | left; auto
            | right; intros E; discriminate E].
        + right. intros _ r E. discriminate E.
        + right. intros _ r E. discriminate E.
      - right. intros _ r E. injection E as -> _.
        apply noLineBreak_cons in Hw as (Hlf & _). now apply Hlf. }
    assert (L : exists blanks,
               Forall (fun l => blank l = true) blanks /\
               split LF (normalize (h ++ nl1 ++ w ++ nl2 ++ d))
               = trimStart h :: blanks ++ [trimEnd d]).
    { unfold normalize. rewrite T.
      destruct C as [(-> & -> & ->) | C].
      - (* a lone carriage return followed by a line feed is one ending *)
        exists []. split; [constructor|].
        change ([CR] ++ [] ++ [LF] ++ trimEnd d) with ([CR; LF] ++ trimEnd d).
        rewrite (lines_step (trimStart h) [CR; LF] (trimEnd d) Hh'
                   (or_intror (or_intror eq_refl)))
          by (intros E; discriminate E).
        now rewrite (lines_last _ Hd').
      - exists [w]. split; [repeat constructor; exact Hwb|].
        rewrite (lines_step (trimStart h) nl1 _ Hh' Hnl1 C).
        rewrite (lines_step w nl2 (trimEnd d) Hw Hnl2 (fun _ => Hd0)).
        now rewrite (lines_last _ Hd'). }
    destruct L as (blanks & Hb & L).
    rewrite (parseCSV_lines _ _ _ L).
    now rewrite (one_record (trimEnd d) blanks Hdn' Hb).
Qed.


End ParserClaims.

(* ------------------------------------------------------------------ *)
(** ** The history pivot *)

Module PivotFacts.


Lemma mem_app (x : jsstring) (l1 l2 : list jsstring) :
  mem x (l1 ++ l2) = mem x l1 || mem x l2.
Proof. apply existsb_app. Qed.

Lemma mem_keys {A} (o : object A) (k : jsstring) :
  mem k (List.map fst o) = match obj_get o k with Some _ => true | None => false end.
Proof.
  induction o as [|[k' v] o IH]; simpl; [reflexivity|].
  rewrite (streq_sym k k'). destruct (streq k' k); simpl; auto.
Qed.

Lemma filter_filter {A} (p q : A -> bool) (l : list A) :
  List.filter p (List.filter q l) = List.filter (fun x => q x && p x) l.
Proof.
  induction l as [|x l IH]; simpl; [reflexivity|].
  destruct (q x); simpl; [destruct (p x)|]; now rewrite IH.
Qed.

Lemma firstSeen_In (l : list jsstring) (x : jsstring) :
  In x (firstSeen l) <-> In x l.
Proof.
  induction l as [|y l IH]; simpl; [tauto|].
  rewrite filter_In, IH, negb_true_iff, streq_neq.
  destruct (list_eq_dec N.eq_dec y x); [tauto|].
  split; [tauto | intros [H|H]; [tauto | right; split; congruence]].
Qed.

Lemma firstSeen_NoDup (l : list jsstring) : NoDup (firstSeen l).
Proof.
  induction l as [|y l IH]; simpl; constructor.
  - rewrite filter_In, negb_true_iff, streq_neq. tauto.
  - now apply NoDup_filter.
Qed.

Lemma spaced_not_index (k : jsstring) :
  existsb (N.eqb 32) k = true -> arrayIndex k = None.
Proof.
  intros H. unfold arrayIndex. destruct k as [|c r]; [reflexivity|].
  replace (forallb isDigit (c :: r)) with false; [reflexivity|].
  symmetry. apply not_true_iff_false. intros F.
  apply existsb_exists in H as (x & Hx & E). apply N.eqb_eq in E. subst x.
  rewrite forallb_forall in F. now specialize (F _ Hx).
Qed.

Lemma Object_values_named {A} (o : object A) :
  Forall (fun kv => arrayIndex (fst kv) = None) o ->
  Object_values o = List.map snd o.
Proof.
  intros H. unfold Object_values.
  assert (E1 : fold_right
                 (fun kv acc =>
                    match arrayIndex (fst kv) with
                    | Some i => insertIndexed i (snd kv) acc
                    | None => acc
                    end) [] o = []).
  { induction H as [|kv o Hk _ IH]; simpl; [reflexivity|]. now rewrite Hk. }
  assert (E2 : List.filter
                 (fun kv => match arrayIndex (fst kv) with
                            | Some _ => false
                            | None => true
                            end) o = o).
  { clear E1. induction H as [|kv o Hk _ IH]; [reflexivity|].
    cbn [List.filter]. cbv beta in Hk. rewrite Hk. now f_equal. }
  now rewrite E1, E2.
Qed.

Lemma object_by_keys {A} (o : object A) (d : A) :
  NoDup (List.map fst o) ->
  List.map snd o
  = List.map (fun k => match obj_get o k with Some v => v | None => d end)
      (List.map fst o).
Proof.
  induction o as [|[k v] o IH]; simpl; [reflexivity|].
  intros H. apply NoDup_cons_iff in H as [Hk Ho].
  rewrite streq_refl. f_equal. rewrite (IH Ho).
  apply map_ext_in. intros k' Hk'.
  destruct (streq k k') eqn:E; [|reflexivity].
  apply streq_eq in E. subst k'. contradiction.
Qed.

Section WithHost.
Variable host : Host.

Lemma pivotStep_get (byDate : object point) (r : record) (l : jsstring) :
  obj_get (pivotStep host byDate r) l = stepPoint host l (obj_get byDate l) r.
Proof.
  unfold pivotStep, stepPoint. fold (labelOf host r).
  fold (countryKey host r). fold (goldOf r).
  set (lr := labelOf host r).
  destruct (obj_get byDate lr) as [p|] eqn:E.
  - rewrite E. destruct (streq lr l) eqn:El.
    + apply streq_eq in El. subst l. rewrite E. apply obj_get_set_same.
    + apply streq_neq in El. now apply obj_get_set_other.
  - rewrite obj_get_set_same. destruct (streq lr l) eqn:El.
    + apply streq_eq in El. subst l. rewrite E. apply obj_get_set_same.
    + apply streq_neq in El. now rewrite !obj_get_set_other.
Qed.

Lemma pivotStep_keys (byDate : object point) (r : record) :
  List.map fst (pivotStep host byDate r)
  = if mem (labelOf host r) (List.map fst byDate)
    then List.map fst byDate
    else List.map fst byDate ++ [labelOf host r].
Proof.
  unfold pivotStep. fold (labelOf host r). set (lr := labelOf host r).
  rewrite mem_keys.
  destruct (obj_get byDate lr) as [p|] eqn:E.
  - rewrite E. now rewrite (obj_set_keys_present lr _ byDate p E).
  - rewrite obj_get_set_same.
    rewrite (obj_set_keys_present lr _ _ [(str "date", VStr lr)]
               (obj_get_set_same lr _ byDate)).
    now apply obj_set_keys_fresh.
Qed.

Lemma fold_pivot_get (rows : list record) (byDate : object point) (l : jsstring) :
  obj_get (fold_left (pivotStep host) rows byDate) l
  = fold_left (stepPoint host l) rows (obj_get byDate l).
Proof.
  revert byDate. induction rows as [|r rows IH]; intros byDate; simpl; [reflexivity|].
  now rewrite IH, pivotStep_get.
Qed.

Lemma fold_pivot_keys (rows : list record) (byDate : object point) :
  List.map fst (fold_left (pivotStep host) rows byDate)
  = List.map fst byDate
    ++ List.filter (fun l => negb (mem l (List.map fst byDate)))
         (firstSeen (List.map (labelOf host) rows)).
Proof.
  revert byDate. induction rows as [|r rows IH]; intros byDate; simpl.
  - now rewrite app_nil_r.
  - rewrite IH, pivotStep_keys. rewrite filter_filter.
    destruct (mem (labelOf host r) (List.map fst byDate)) eqn:M; simpl.
    + f_equal. apply filter_ext_in. intros l _.
      destruct (streq l (labelOf host r)) eqn:E; simpl; [|reflexivity].
      apply streq_eq in E. subst l. now rewrite M.
    + rewrite <- app_assoc. simpl. do 2 f_equal.
      apply filter_ext. intros l. rewrite mem_app. simpl.
      unfold mem at 2. simpl. rewrite orb_false_r, negb_orb. apply andb_comm.
Qed.

Lemma stepPoint_started (l : jsstring) (rows : list record) (p : point) :
  fold_left (stepPoint host l) rows (Some p)
  = Some (fold_left
            (fun p r =>
               if streq (labelOf host r) l
               then Put p (countryKey host r) (goldOf r) else p) rows p).
Proof.
  revert p. induction rows as [|r rows IH]; intros p; simpl; [reflexivity|].
  unfold stepPoint at 2. destruct (streq (labelOf host r) l); apply IH.
Qed.

Lemma stepPoint_fresh (l : jsstring) (rows : list record) :
  In l (List.map (labelOf host) rows) ->
  fold_left (stepPoint host l) rows None = Some (pointOf host l rows).
Proof.
  unfold pointOf. induction rows as [|r rows IH]; simpl; [tauto|].
  intros H. unfold stepPoint at 2.
  destruct (streq (labelOf host r) l) eqn:E.
  - apply stepPoint_started.
  - apply streq_neq in E. destruct H as [H|H]; [contradiction | auto].
Qed.

Lemma buildByDate_keys (rows : list record) :
  List.map fst (buildByDate host rows) = firstSeen (List.map (labelOf host) rows).
Proof.
  unfold buildByDate. rewrite fold_pivot_keys. simpl.
  induction (firstSeen (List.map (labelOf host) rows)); simpl; congruence.
Qed.

Lemma buildByDate_get (rows : list record) (l : jsstring) :
  In l (List.map (labelOf host) rows) ->
  obj_get (buildByDate host rows) l = Some (pointOf host l rows).
Proof.
  intros H. unfold buildByDate. rewrite fold_pivot_get. simpl.
  now apply stepPoint_fresh.
Qed.

Lemma buildHistoryChartData_points (rows : list record) :
  buildHistoryChartData host rows
  = List.map (fun l => pointOf host l rows)
      (firstSeen (List.map (labelOf host) rows)).
Proof.
  unfold buildHistoryChartData.
  assert (K := buildByDate_keys rows).
  rewrite Object_values_named.
  - rewrite (object_by_keys (buildByDate host rows) [])
      by (rewrite K; apply firstSeen_NoDup).
    rewrite K. apply map_ext_in. intros l Hl.
    apply (proj1 (firstSeen_In _ _)) in Hl. now rewrite (buildByDate_get rows l Hl).
  - apply Forall_forall. intros [k p] Hk. simpl.
    apply spaced_not_index.
    assert (Hin : In k (List.map fst (buildByDate host rows))).
    { apply in_map_iff. now exists (k, p). }
    rewrite K in Hin. apply (proj1 (firstSeen_In _ _)) in Hin.
    apply in_map_iff in Hin as (r & <- & _).
    apply formatDate_spaced.
Qed.

End WithHost.

End PivotFacts.
Import PivotFacts.

Module PivotClaims.

Section WithHost.
Variable host : Host.

Lemma pointOf_app (l : jsstring) (before rest : list record) (r : record) :
  pointOf host l (before ++ r :: rest)
  = fold_left
      (fun p r' =>
         if streq (labelOf host r') l
         then Put p (countryKey host r') (goldOf r') else p)
      rest
      (if streq (labelOf host r) l
       then Put (pointOf host l before) (countryKey host r) (goldOf r)
       else pointOf host l before).
Proof. unfold pointOf. now rewrite fold_left_app. Qed.

Lemma later_rows_keep_field (l k : jsstring) (rest : list record) (p : point) :
  Forall (fun r' => ~ (labelOf host r' = l /\ countryKey host r' = k)) rest ->
  obj_get
    (fold_left
       (fun p r' =>
          if streq (labelOf host r') l
          then Put p (countryKey host r') (goldOf r') else p) rest p) k
  = obj_get p k.
Proof.
  intros H. revert p. induction H as [|r' rest Hr _ IH]; intros p; simpl; [reflexivity|].
  rewrite IH. destruct (streq (labelOf host r') l) eqn:E; [|reflexivity].
  apply streq_eq in E. unfold Put.
  destruct (streq (countryKey host r') (str "__proto__")); [reflexivity|].
  apply obj_get_set_other. intros Ek. apply Hr. auto.
Qed.

End WithHost.

(** C2, as the code has it. The pivot returns one point per distinct
    date label, in the order the labels are first met; the point of a
    label starts as [{ date: label }] and takes, in input order, the
    Gold value of each record with that label under the record's country
    name. So a record's country holds that record's Gold value unless a
    later record with the same label and country overwrote it, provided
    the country name is not [__proto__]. *)
Theorem pivot_one_point_per_label (host : Host) (rows : list record) :
  buildHistoryChartData host rows
  = List.map (fun l => pointOf host l rows)
      (firstSeen (List.map (labelOf host) rows))
  /\ NoDup (firstSeen (List.map (labelOf host) rows))
  /\ (forall l, In l (firstSeen (List.map (labelOf host) rows))
                <-> In l (List.map (labelOf host) rows))
  /\ (forall before r rest,
        rows = before ++ r :: rest ->
        countryKey host r <> str "__proto__" ->
        Forall (fun r' => ~ (labelOf host r' = labelOf host r
                             /\ countryKey host r' = countryKey host r)) rest ->
        In (pointOf host (labelOf host r) rows) (buildHistoryChartData host rows)
        /\ obj_get (pointOf host (labelOf host r) rows) (countryKey host r)
           = Some (goldOf r)).
Proof.
  split; [apply buildHistoryChartData_points|].
  split; [apply firstSeen_NoDup|].
  split; [intros l; apply firstSeen_In|].
  intros before r rest -> Hk Hrest. split.
  - rewrite buildHistoryChartData_points.
    apply (in_map (fun l => pointOf host l (before ++ r :: rest))).
    apply firstSeen_In. rewrite map_app. apply in_or_app. right. now left.
  - rewrite pointOf_app, streq_refl.
    rewrite (later_rows_keep_field host _ _ rest _ Hrest).
    unfold Put. apply streq_neq in Hk. rewrite Hk. apply obj_get_set_same.
Qed.

(** C2 as the spec words it fails on the single record
    [{ Scrape_Date: "2026-02-09", Country: "__proto__", Gold: 3 }]: the
    only point is [{ date: "Feb 09" }], and no point has a field named
    after the record's country. The record is what [parseCSV] returns
    for a history file with that one line. *)
Lemma pivot_proto_country_leaves_no_field :
  buildHistoryChartData sampleHost [protoRow]
  = [[(str "date", VStr (str "Feb 09"))]]
  /\ parseCSV (str "Scrape_Date,Country,Gold" ++ newline
               ++ str "2026-02-09,__proto__,3") = Normal [protoRow]
  /\ countryKey sampleHost protoRow = str "__proto__"
  /\ (forall p, In p (buildHistoryChartData sampleHost [protoRow]) ->
                obj_get p (countryKey sampleHost protoRow) = None)
  /\ ~ (exists p, In p (buildHistoryChartData sampleHost [protoRow])
                  /\ obj_get p (countryKey sampleHost protoRow)
                     = Some (goldOf protoRow)).
Proof.
  assert (E : buildHistoryChartData sampleHost [protoRow]
              = [[(str "date", VStr (str "Feb 09"))]])
    by (vm_compute; reflexivity).
  rewrite E. split; [reflexivity|]. split; [vm_compute; reflexivity|].
  split; [vm_compute; reflexivity|].
  split.
  - intros p [<- | []]. vm_compute. reflexivity.
  - intros (p & [<- | []] & Hg). vm_compute in Hg. discriminate Hg.
Qed.

End PivotClaims.

(* ------------------------------------------------------------------ *)
(** ** Sorting by Gold *)

Module SortFacts.

Section Sorting.
Context {A : Type}.
Variable cmp : A -> A -> comparison.
Variable key : A -> Z.
Variable P : A -> Prop.

(** On the elements at hand the comparator orders by descending key. *)
Hypothesis cmp_key :
  forall a b, P a -> P b -> cmp a b = (key b ?= key a)%Z.

Lemma insertSorted_perm (x : A) (l : list A) :
  Permutation (insertSorted cmp x l) (x :: l).
Proof.
  induction l as [|y l IH]; simpl; [reflexivity|].
  destruct (cmp x y); try reflexivity.
  rewrite IH. apply perm_swap.
Qed.

Lemma sort_perm (l : list A) : Permutation (sort cmp l) l.
Proof.
  induction l as [|x l IH]; simpl; [reflexivity|].
  rewrite insertSorted_perm. now constructor.
Qed.

Lemma sort_Forall (l : list A) : Forall P l -> Forall P (sort cmp l).
Proof.
  intros H. eapply Permutation_Forall; [|exact H].
  symmetry. apply sort_perm.
Qed.

Lemma insertSorted_descending (x : A) (l : list A) :
  P x -> Forall P l ->
  descendingBy key l -> descendingBy key (insertSorted cmp x l).
Proof.
  intros Hx Hl Hs. induction Hs as [|y l Hs IH Hy]; simpl.
  - repeat constructor.
  - apply Forall_cons_iff in Hl as [Py Pl].
    rewrite (cmp_key x y Hx Py).
    destruct (key y ?= key x)%Z eqn:E.
    + apply Z.compare_eq in E. constructor; [now constructor|].
      constructor; [cbv beta; lia|]. eapply Forall_impl; [|exact Hy].
      cbv beta. intros ? ?. lia.
    + apply (proj1 (Z.compare_lt_iff _ _)) in E. constructor; [now constructor|].
      constructor; [cbv beta; lia|]. eapply Forall_impl; [|exact Hy].
      cbv beta. intros ? ?. lia.
    + apply (proj1 (Z.compare_gt_iff _ _)) in E. constructor; [now apply IH|].
      eapply Permutation_Forall; [symmetry; apply insertSorted_perm|].
      constructor; [cbv beta; lia | exact Hy].
Qed.

Lemma sort_descending (l : list A) :
  Forall P l -> descendingBy key (sort cmp l).
Proof.
  induction l as [|x l IH]; simpl; intros H; [constructor|].
  apply Forall_cons_iff in H as [Px Pl].
  apply insertSorted_descending; auto using sort_Forall.
Qed.

Lemma insertSorted_stable (g : Z) (x : A) (l : list A) :
  P x -> Forall P l ->
  List.filter (fun a => (key a =? g)%Z) (insertSorted cmp x l)
  = List.filter (fun a => (key a =? g)%Z) (x :: l).
Proof.
  intros Hx Hl. induction Hl as [|y l Py _ IH]; [reflexivity|].
  cbn [insertSorted]. rewrite (cmp_key x y Hx Py).
  destruct (key y ?= key x)%Z eqn:E; try reflexivity.
  apply (proj1 (Z.compare_gt_iff _ _)) in E.
  cbn [List.filter] in *. rewrite IH.
  destruct (key x =? g)%Z eqn:Ex; [|reflexivity].
  apply Z.eqb_eq in Ex.
  replace (key y =? g)%Z with false; [reflexivity|].
  symmetry. apply Z.eqb_neq. lia.
Qed.

Lemma sort_stable (g : Z) (l : list A) :
  Forall P l ->
  List.filter (fun a => (key a =? g)%Z) (sort cmp l)
  = List.filter (fun a => (key a =? g)%Z) l.
Proof.
  induction l as [|x l IH]; intros H; [reflexivity|].
  apply Forall_cons_iff in H as [Px Pl].
  cbn [sort fold_right]. fold (sort cmp l).
  rewrite insertSorted_stable by auto using sort_Forall.
  cbn [List.filter]. now rewrite (IH Pl).
Qed.

End Sorting.

Lemma goldCount_isCount (r : record) (z : Z) :
  isCount (Get r (str "Gold")) z -> goldCount r = z.
Proof.
  intros (q & E & Hq & _). unfold goldCount. rewrite E.
  rewrite Hq. apply Qfloor_Z.
Qed.

Lemma byGoldDesc_counts (a b : record) :
  hasGoldCount a -> hasGoldCount b ->
  byGoldDesc a b = (goldCount b ?= goldCount a)%Z.
Proof.
  intros [za Ha] [zb Hb].
  rewrite (goldCount_isCount a za Ha), (goldCount_isCount b zb Hb).
  destruct Ha as (qa & Ea & Ha & _). destruct Hb as (qb & Eb & Hb & _).
  unfold byGoldDesc. rewrite Ea, Eb. simpl.
  rewrite Ha, Hb. unfold Qcompare, Qminus, Qplus, Qopp, inject_Z. simpl.
  rewrite !Z.mul_1_r. rewrite (Z.compare_sub zb za). now rewrite Z.add_opp_r.
Qed.

End SortFacts.
Import SortFacts.

(* ------------------------------------------------------------------ *)
(** ** Loading and the selection *)

Module SelectionFacts.

Lemma strictEq_refl (v : value) : strictEq v v = true.
Proof.
  destruct v as [|[q|b]|s]; simpl.
  - reflexivity.
  - apply Qeq_bool_refl.
  - now destruct b.
  - apply streq_refl.
Qed.

Lemma strictEq_sym (a b : value) : strictEq a b = strictEq b a.
Proof.
  destruct a as [|[x|s]|s], b as [|[y|t]|t]; simpl; try reflexivity.
  - destruct (Qeq_bool x y) eqn:E, (Qeq_bool y x) eqn:F; try reflexivity.
    + apply Qeq_bool_sym in E. congruence.
    + apply Qeq_bool_sym in F. congruence.
  - now destruct s, t.
  - apply streq_sym.
Qed.

Lemma strictEq_trans (a b c : value) :
  strictEq a b = true -> strictEq b c = true -> strictEq a c = true.
Proof.
  destruct a as [|[x|s]|s], b as [|[y|t]|t], c as [|[z|u]|u]; simpl;
    try discriminate; try reflexivity.
  - apply Qeq_bool_trans.
  - destruct s, t, u; simpl; auto.
  - intros H1 H2. apply streq_eq in H1, H2. subst. apply streq_refl.
Qed.

Lemma includes_In (l : list value) (c : value) :
  includes l c = true <-> exists x, In x l /\ strictEq x c = true.
Proof. unfold includes. apply existsb_exists. Qed.

Lemma includes_app (l1 l2 : list value) (c : value) :
  includes (l1 ++ l2) c = includes l1 c || includes l2 c.
Proof. apply existsb_app. Qed.

Lemma includes_filter (p : value -> bool) (l : list value) (c : value) :
  includes (List.filter p l) c = true -> includes l c = true.
Proof.
  rewrite !includes_In. intros (x & Hx & E).
  apply filter_In in Hx as [Hx _]. now exists x.
Qed.

Lemma includes_firstn (n : nat) (l : list value) (c : value) :
  includes (firstn n l) c = true -> includes l c = true.
Proof.
  revert n. induction l as [|x l IH]; intros [|n]; simpl; try discriminate.
  intros H. apply orb_true_iff in H as [H|H].
  - now rewrite H.
  - rewrite (IH n H). apply orb_true_r.
Qed.

Lemma distinct_filter (p : value -> bool) (l : list value) :
  distinctCountries l = true -> distinctCountries (List.filter p l) = true.
Proof.
  induction l as [|x l IH]; simpl; [reflexivity|].
  intros H. apply andb_true_iff in H as [Hx Hl].
  destruct (p x); simpl; [|auto].
  rewrite (IH Hl), andb_true_r.
  apply negb_true_iff in Hx. apply negb_true_iff.
  destruct (includes (List.filter p l) x) eqn:E; [|reflexivity].
  apply includes_filter in E. congruence.
Qed.

Lemma distinct_firstn (n : nat) (l : list value) :
  distinctCountries l = true -> distinctCountries (firstn n l) = true.
Proof.
  revert n. induction l as [|x l IH]; intros [|n]; simpl; try reflexivity.
  intros H. apply andb_true_iff in H as [Hx Hl].
  rewrite (IH n Hl), andb_true_r.
  apply negb_true_iff in Hx. apply negb_true_iff.
  destruct (includes (firstn n l) x) eqn:E; [|reflexivity].
  apply includes_firstn in E. congruence.
Qed.

Lemma distinct_snoc (l : list value) (c : value) :
  distinctCountries l = true -> includes l c = false ->
  distinctCountries (l ++ [c]) = true.
Proof.
  induction l as [|x l IH]; simpl; [reflexivity|].
  intros H Hc. apply andb_true_iff in H as [Hx Hl].
  apply orb_false_iff in Hc as [Hxc Hlc].
  rewrite (IH Hl Hlc), andb_true_r.
  rewrite includes_app. simpl. rewrite orb_false_r.
  apply negb_true_iff in Hx. rewrite Hx. simpl.
  now rewrite strictEq_sym, Hxc.
Qed.

Lemma filter_others_all (l : list value) (x c : value) :
  includes l x = false -> strictEq x c = true ->
  List.filter (fun y => negb (strictEq y c)) l = l.
Proof.
  intros Hx Hc. induction l as [|y l IH]; simpl; [reflexivity|].
  simpl in Hx. apply orb_false_iff in Hx as [Hyx Hl].
  destruct (strictEq y c) eqn:E; simpl.
  - rewrite (strictEq_sym x c) in Hc.
    rewrite (strictEq_trans y c x E Hc) in Hyx. discriminate.
  - now rewrite (IH Hl).
Qed.

Lemma filter_subseq {A} (p : A -> bool) (l : list A) : subseq (List.filter p l) l.
Proof.
  induction l as [|x l IH]; simpl; [constructor|].
  destruct (p x); now constructor.
Qed.

Lemma toggleSelection_distinct (c : value) (prev : list value) :
  distinctCountries prev = true ->
  distinctCountries (toggleSelection c prev) = true.
Proof.
  intros H. unfold toggleSelection.
  destruct (includes prev c) eqn:E.
  - now apply distinct_filter.
  - destruct (length prev <? 5)%nat; [now apply distinct_snoc | assumption].
Qed.

Lemma toggleSelection_length (c : value) (prev : list value) :
  (length prev <= 5)%nat -> (length (toggleSelection c prev) <= 5)%nat.
Proof.
  intros H. unfold toggleSelection.
  destruct (includes prev c).
  - pose proof (filter_length_le (fun x => negb (strictEq x c)) prev). lia.
  - destruct (length prev <? 5)%nat eqn:E; [|assumption].
    apply Nat.ltb_lt in E. rewrite length_app. simpl. lia.
Qed.

Section WithHost.
Variable host : Host.

(** What a load that threw nothing has committed. *)
Lemma tryLoad_committed (fetched : completion (response * response)) (s s1 : state) :
  tryLoad host fetched s = Normal s1 ->
  countries s1 = top5Of (latestData s1)
  /\ selectedCountries s1 = firstn 3 (countries s1)
  /\ fetchError s1 = fetchError s
  /\ lastUpdated s1 = firstScrapeDate (latestData s1).
Proof.
  unfold tryLoad. destruct fetched as [[latestRes historyRes]|m]; simpl; [|discriminate].
  destruct (ok latestRes); simpl; [|discriminate].
  destruct (ok historyRes); simpl; [|discriminate].
  destruct (text latestRes) as [lt|]; simpl; [|discriminate].
  destruct (text historyRes) as [ht|]; simpl; [|discriminate].
  destruct (parseCSV lt) as [latest|]; simpl; [|discriminate].
  destruct (parseCSV ht) as [history|]; simpl; [|discriminate].
  intros E. injection E as <-. simpl. auto.
Qed.

Lemma loadData_committed (fetched : completion (response * response)) (s s1 : state) :
  tryLoad host fetched s = Normal s1 ->
  loadData host fetched s = setLoaded true s1.
Proof. intros E. unfold loadData. now rewrite E. Qed.

End WithHost.

End SelectionFacts.
Import SelectionFacts.

Module DashboardClaims.

(** C3, as the code has it. After a load whose two responses have a 2xx
    status and a readable body, with every record parsed from the latest
    body carrying a Gold count: the latest records are that parse, the
    top-5 list is the country names of the first five of them in
    descending order of Gold, records with equal Gold keeping their
    input order, and the selection is the first three entries of that
    list. *)
Theorem top5_and_initial_selection
  (host : Host) (latestRes historyRes : response) (lt ht : jsstring)
  (latest : list record) (s : state) :
  ok latestRes = true -> ok historyRes = true ->
  text latestRes = Normal lt -> text historyRes = Normal ht ->
  parseCSV lt = Normal latest ->
  Forall hasGoldCount latest ->
  let s' := loadData host (Normal (latestRes, historyRes)) s in
  loaded s' = true
  /\ fetchError s' = fetchError s
  /\ latestData s' = latest
  /\ exists sorted,
       Permutation sorted latest
       /\ descendingBy goldCount sorted
       /\ (forall g,
             List.filter (fun r => (goldCount r =? g)%Z) sorted
             = List.filter (fun r => (goldCount r =? g)%Z) latest)
       /\ countries s' = List.map (fun r => Get r (str "Country")) (firstn 5 sorted)
       /\ selectedCountries s' = firstn 3 (countries s').
Proof.
  intros O1 O2 T1 T2 P Hgold s'. subst s'.
  assert (P2 : exists history, parseCSV ht = Normal history).
  { destruct (split LF (normalize ht)) as [|hl lines] eqn:E.
    - now apply split_nonempty in E.
    - eexists. exact (parseCSV_lines ht hl lines E). }
  destruct P2 as [history P2].
  unfold loadData, tryLoad. simpl.
  rewrite O1, O2. simpl. rewrite T1, T2. simpl. rewrite P, P2. simpl.
  split; [reflexivity|]. split; [reflexivity|]. split; [reflexivity|].
  exists (sort byGoldDesc latest).
  split; [apply sort_perm|].
  split; [apply (sort_descending byGoldDesc goldCount hasGoldCount byGoldDesc_counts);
          exact Hgold|].
  split; [intros g;
          apply (sort_stable byGoldDesc goldCount hasGoldCount byGoldDesc_counts);
          exact Hgold|].
  split; reflexivity.
Qed.

(** C3 as the spec words it fails when a Gold cell is not a number. The
    latest file with the rows [A,1], [B,x], [C,2] loads without error and
    gives the top-5 list A, B, C: A, with 1 Gold, stands before C, with
    2, and no descending arrangement of the records yields that list. *)
Lemma top5_unsorted_with_a_non_numeric_gold :
  fetchError unrankedLoaded = None
  /\ latestData unrankedLoaded
     = [[(str "Country", VStr (str "A")); (str "Gold", VNum (Fin 1))];
        [(str "Country", VStr (str "B")); (str "Gold", VStr (str "x"))];
        [(str "Country", VStr (str "C")); (str "Gold", VNum (Fin 2))]]
  /\ countries unrankedLoaded = [VStr (str "A"); VStr (str "B"); VStr (str "C")]
  /\ ~ (exists sorted,
          Permutation sorted (latestData unrankedLoaded)
          /\ descendingBy goldCount sorted
          /\ countries unrankedLoaded
             = List.map (fun r => Get r (str "Country")) (firstn 5 sorted)).
Proof.
  assert (L : latestData unrankedLoaded
              = [[(str "Country", VStr (str "A")); (str "Gold", VNum (Fin 1))];
                 [(str "Country", VStr (str "B")); (str "Gold", VStr (str "x"))];
                 [(str "Country", VStr (str "C")); (str "Gold", VNum (Fin 2))]])
    by (vm_compute; reflexivity).
  assert (C : countries unrankedLoaded
              = [VStr (str "A"); VStr (str "B"); VStr (str "C")])
    by (vm_compute; reflexivity).
  split; [vm_compute; reflexivity|]. split; [exact L|]. split; [exact C|].
  rewrite L, C. intros (sorted & Hp & Hd & Hc).
  pose proof (Permutation_length Hp) as Len. simpl in Len.
  destruct sorted as [|ra [|rb [|rc [|rd rest]]]]; try discriminate Len.
  simpl in Hc. injection Hc as Ea _ Ec.
  assert (Ia : In ra [ra; rb; rc]) by (simpl; auto).
  assert (Ic : In rc [ra; rb; rc]) by (simpl; auto).
  apply (Permutation_in _ Hp) in Ia. apply (Permutation_in _ Hp) in Ic.
  unfold descendingBy in Hd.
  apply StronglySorted_inv in Hd as [_ Hd].
  apply Forall_cons_iff in Hd as [_ Hd]. apply Forall_cons_iff in Hd as [Hd _].
  cbv beta in Hd.
  destruct Ia as [<- | [<- | [<- | []]]]; vm_compute in Ea; try discriminate Ea;
    destruct Ic as [<- | [<- | [<- | []]]]; vm_compute in Ec; try discriminate Ec.
  vm_compute in Hd. now apply Hd.
Qed.

(** C5. When both fetches settle with a response and one has a status
    outside 200..299, the load stores the message naming the resource
    that failed (the latest one when both did) and its status code,
    commits none of the data, shows the error screen, and leaves the
    loading state; the loading state is left after every load, whatever
    happened. *)
Theorem failed_status_gives_labelled_error
  (host : Host) (latestRes historyRes : response) (s : state) :
  let s' := loadData host (Normal (latestRes, historyRes)) s in
  (ok latestRes = false ->
   fetchError s' = Some (str "latest CSV: " ++ decimal (status latestRes)))
  /\ (ok latestRes = true -> ok historyRes = false ->
      fetchError s' = Some (str "history CSV: " ++ decimal (status historyRes)))
  /\ (ok latestRes = false \/ ok historyRes = false ->
      latestData s' = latestData s /\ historyData s' = historyData s
      /\ countries s' = countries s
      /\ selectedCountries s' = selectedCountries s)
  /\ (ok latestRes = false \/ ok historyRes = false -> render s' = ErrorScreen)
  /\ loaded s' = true
  /\ forall fetched, loaded (loadData host fetched s) = true.
Proof.
  intros s'. subst s'. unfold render, loadData, tryLoad. simpl.
  split; [intros ->; reflexivity|].
  split; [intros -> ->; reflexivity|].
  split; [|split; [|split; [reflexivity | intros fetched; reflexivity]]].
  - intros [-> | H]; simpl; [repeat split|].
    destruct (ok latestRes); simpl; [|repeat split].
    rewrite H. simpl. repeat split.
  - intros [-> | H]; simpl; [reflexivity|].
    destruct (ok latestRes); simpl; [|reflexivity].
    rewrite H. reflexivity.
Qed.

(** C4. Toggling a country that is not selected appends it when fewer
    than five are selected, and changes nothing at all when five (or
    more) are. *)
Theorem toggle_unselected_respects_cap (c : value) (s : state) :
  includes (selectedCountries s) c = false ->
  ((length (selectedCountries s) < 5)%nat ->
   selectedCountries (toggleCountry c s) = selectedCountries s ++ [c])
  /\ ((5 <= length (selectedCountries s))%nat -> toggleCountry c s = s).
Proof.
  intros H. destruct s as [v m hr ld fe la hi co sel lu].
  unfold toggleCountry, toggleSelection. simpl in *. rewrite H. split.
  - intros L. apply Nat.ltb_lt in L. now rewrite L.
  - intros L. apply Nat.ltb_ge in L. now rewrite L.
Qed.

Lemma remove_the_one (c : value) (prev : list value) :
  distinctCountries prev = true -> includes prev c = true ->
  exists l1 c' l2,
    prev = l1 ++ c' :: l2 /\ strictEq c' c = true
    /\ List.filter (fun x => negb (strictEq x c)) prev = l1 ++ l2.
Proof.
  induction prev as [|x l IH]; simpl; [discriminate|].
  intros D I. apply andb_true_iff in D as [Dx Dl].
  apply negb_true_iff in Dx.
  destruct (strictEq x c) eqn:E; simpl.
  - exists [], x, l. repeat split; [assumption|].
    simpl. apply (filter_others_all l x c Dx E).
  - simpl in I. destruct (IH Dl I) as (l1 & c' & l2 & -> & Hc & Hf).
    exists (x :: l1), c', l2. repeat split; [assumption|].
    simpl. now rewrite Hf.
Qed.

(** C6. Toggling a selected country [c] leaves exactly the entries that
    are not [c], in their previous order; when the selection has no
    duplicates this takes out the single entry for [c]. *)
Theorem toggle_selected_removes_only_it (c : value) (s : state) :
  includes (selectedCountries s) c = true ->
  let prev := selectedCountries s in
  let next := selectedCountries (toggleCountry c s) in
  includes next c = false
  /\ (forall x, In x next <-> In x prev /\ strictEq x c = false)
  /\ subseq next prev
  /\ (distinctCountries prev = true ->
      exists l1 c' l2,
        prev = l1 ++ c' :: l2 /\ strictEq c' c = true /\ next = l1 ++ l2).
Proof.
  intros H prev next. subst prev next.
  unfold toggleCountry. simpl. unfold toggleSelection. rewrite H.
  split; [|split; [|split]].
  - destruct (includes (List.filter _ (selectedCountries s)) c) eqn:E; [|reflexivity].
    apply includes_In in E as (x & Hx & Ex).
    apply filter_In in Hx as [_ Hx]. now rewrite Ex in Hx.
  - intros x. rewrite filter_In, negb_true_iff. tauto.
  - apply filter_subseq.
  - intros D. now apply remove_the_one.
Qed.

(** C10. From a state whose selection is the first three entries of a
    top-5 list without duplicates, every state reached by picking views,
    picking medal types, hovering rows and toggling countries has a selection without
    duplicates and of length at most 5. *)
Theorem selection_stays_distinct_and_capped (s0 s : state) :
  selectedCountries s0 = firstn 3 (countries s0) ->
  distinctCountries (countries s0) = true ->
  reachable s0 s ->
  distinctCountries (selectedCountries s) = true
  /\ (length (selectedCountries s) <= 5)%nat.
Proof.
  intros Hsel Hd R. induction R as [|s s' R IH St].
  - rewrite Hsel. split; [now apply distinct_firstn|].
    pose proof (firstn_le_length 3 (countries s0)). lia.
  - destruct IH as [D L]. destruct St as [v s | m s | h s | c s]; simpl.
    + now split.
    + now split.
    + now split.
    + split; [now apply toggleSelection_distinct | now apply toggleSelection_length].
Qed.

End DashboardClaims.

(* ------------------------------------------------------------------ *)
(** ** The properties at concrete inputs *)

Module Instances.

Example parse_one_record :
  parseCSV (str "Country,Gold" ++ newline ++ str "Norway,5")
  = Normal [[(str "Country", VStr (str "Norway")); (str "Gold", VNum (Fin 5))]].
Proof. vm_compute. reflexivity. Qed.

Example parse_empty_field_stays_string :
  parseCSV (str "Country,Gold" ++ newline ++ str "Norway,")
  = Normal [[(str "Country", VStr (str "Norway")); (str "Gold", VStr [])]].
Proof. vm_compute. reflexivity. Qed.

Example number_examples :
  Number (str "12") = Some (Fin 12)
  /\ Number [] = Some (Fin 0)
  /\ Number (str "0x1F") = Some (Fin 31)
  /\ Number (str "-Infinity") = Some (Inf true)
  /\ Number (str "12abc") = None
  /\ Number (str "1,5") = None
  /\ Number (str ".") = None.
Proof. repeat split; vm_compute; reflexivity. Qed.

Example pivot_grouping :
  buildHistoryChartData sampleHost
    [historyRow "2026-01-01" "Norway" 3;
     historyRow "2026-01-01" "Sweden" 2;
     historyRow "2026-01-02" "Norway" 4]
  = [[(str "date", VStr (str "Jan 01"));
      (str "Norway", VNum (Fin 3)); (str "Sweden", VNum (Fin 2))];
     [(str "date", VStr (str "Jan 02")); (str "Norway", VNum (Fin 4))]].
Proof. vm_compute. reflexivity. Qed.

Example pivot_keeps_first_seen_order :
  List.map (fun p => obj_get p (str "date"))
    (buildHistoryChartData sampleHost
       [historyRow "2026-02-10" "Norway" 5;
        historyRow "2026-02-09" "Norway" 3;
        historyRow "2026-02-10" "Norway" 6])
  = [Some (VStr (str "Feb 10")); Some (VStr (str "Feb 09"))].
Proof. vm_compute. reflexivity. Qed.

Example sample_top5 :
  countries sampleLoaded
  = List.map (fun c => VStr (str c))
      ["Norway"; "Canada"; "Italy"; "Germany"; "Sweden"]%string
  /\ selectedCountries sampleLoaded
     = List.map (fun c => VStr (str c)) ["Norway"; "Canada"; "Italy"]%string
  /\ loaded sampleLoaded = true
  /\ fetchError sampleLoaded = None.
Proof. repeat split; vm_compute; reflexivity. Qed.

Example history_404 :
  fetchError
    (loadData sampleHost
       (Normal (okResponse latestCsv, {| status := 404; text := Normal [] |}))
       initialState)
  = Some (str "history CSV: 404").
Proof. vm_compute. reflexivity. Qed.

Lemma hasGoldCount_intro (r : record) (z : Z) :
  Get r (str "Gold") = VNum (Fin (inject_Z z)) ->
  ((0 <=? z) && (z <? 2 ^ 53))%Z = true ->
  hasGoldCount r.
Proof.
  intros E B. exists z, (inject_Z z).
  apply andb_true_iff in B as [B1 B2].
  apply Z.leb_le in B1. apply Z.ltb_lt in B2.
  split; [exact E|]. split; [reflexivity | split; assumption].
Defined.


Lemma blank_line_emits_no_record_witness :
  parseCSV (str "Country,Gold" ++ [CR; LF] ++ str "Norway,5" ++ [LF] ++ str "   ")
  = Normal [lineRecord [str "Country"; str "Gold"] (str "Norway,5")]
  /\ parseCSV (str "Country,Gold" ++ [CR; LF] ++ str "   " ++ [LF] ++ str "Norway,5")
     = Normal [lineRecord [str "Country"; str "Gold"] (str "Norway,5")].
Proof.
  destruct (ParserClaims.blank_line_emits_no_record
              (str "Country,Gold") (str "Norway,5") (str "   ") [CR; LF] [LF])
    as (P1 & P2 & _).
  - right. right. reflexivity.
  - left. reflexivity.
  - vm_compute. reflexivity.
  - vm_compute. reflexivity.
  - vm_compute. reflexivity.
  - vm_compute. reflexivity.
  - vm_compute. reflexivity.
  - vm_compute. reflexivity.
  - split; [exact P1 | exact P2].
Defined.

Lemma top5_and_initial_selection_witness :
  loaded sampleLoaded = true
  /\ fetchError sampleLoaded = None
  /\ countries sampleLoaded
     = List.map (fun c => VStr (str c))
         ["Norway"; "Canada"; "Italy"; "Germany"; "Sweden"]%string
  /\ selectedCountries sampleLoaded = firstn 3 (countries sampleLoaded).
Proof.
  assert (P : parseCSV latestCsv = Normal (latestData sampleLoaded))
    by (vm_compute; reflexivity).
  assert (G : Forall hasGoldCount (latestData sampleLoaded)).
  { remember (latestData sampleLoaded) as rows eqn:R.
    vm_compute in R. subst rows.
    repeat (apply Forall_cons;
            [eapply hasGoldCount_intro; [vm_compute; reflexivity | vm_compute; reflexivity]|]).
    apply Forall_nil. }
  destruct (DashboardClaims.top5_and_initial_selection
              sampleHost (okResponse latestCsv) (okResponse historyCsv)
              latestCsv historyCsv (latestData sampleLoaded) initialState
              eq_refl eq_refl eq_refl eq_refl P G)
    as (Hl & He & _ & _ & _ & _ & _ & _ & Hs).
  split; [exact Hl|]. split; [exact He|].
  split; [vm_compute; reflexivity | exact Hs].
Defined.

Lemma toggle_unselected_respects_cap_witness :
  length (selectedCountries fiveSelected) = 5%nat
  /\ toggleCountry (VStr (str "Japan")) fiveSelected = fiveSelected.
Proof.
  split; [vm_compute; reflexivity|].
  apply (DashboardClaims.toggle_unselected_respects_cap (VStr (str "Japan")) fiveSelected).
  - vm_compute. reflexivity.
  - vm_compute. lia.
Defined.

Lemma toggle_selected_removes_only_it_witness :
  includes (selectedCountries (toggleCountry (VStr (str "Canada")) sampleLoaded))
    (VStr (str "Canada")) = false
  /\ subseq (selectedCountries (toggleCountry (VStr (str "Canada")) sampleLoaded))
       (selectedCountries sampleLoaded).
Proof.
  assert (I : includes (selectedCountries sampleLoaded) (VStr (str "Canada")) = true)
    by (vm_compute; reflexivity).
  destruct (DashboardClaims.toggle_selected_removes_only_it
              (VStr (str "Canada")) sampleLoaded I)
    as (H1 & _ & H3 & _).
  split; [exact H1 | exact H3].
Defined.

Lemma selection_stays_distinct_and_capped_witness :
  distinctCountries (selectedCountries fiveSelected) = true
  /\ (length (selectedCountries fiveSelected) <= 5)%nat.
Proof.
  apply (DashboardClaims.selection_stays_distinct_and_capped sampleLoaded fiveSelected).
  - vm_compute. reflexivity.
  - vm_compute. reflexivity.
  - unfold fiveSelected.
    apply reach_step with (s := toggleCountry (VStr (str "Germany")) sampleLoaded).
    + apply reach_step with (s := sampleLoaded); [apply reach_start | apply step_toggle].
    + apply step_toggle.
Defined.

End Instances.

(* ------------------------------------------------------------------ *)
(** ** More about the parser *)

Module ParserMore.

Lemma split_pieces_no_sep (sep : N) (s : jsstring) :
  Forall (fun p => ~ In sep p) (split sep s).
Proof.
  induction s as [|c r IH]; simpl.
  - constructor; [tauto | constructor].
  - destruct (c =? sep)%N eqn:E.
    + constructor; [simpl; tauto | exact IH].
    + apply N.eqb_neq in E.
      destruct (split sep r) as [|piece rest]; [repeat constructor; simpl; intuition|].
      apply Forall_cons_iff in IH as [Hp Hr].
      constructor; [simpl; intuition | exact Hr].
Qed.

Lemma split_pieces_chars (sep : N) (s p : jsstring) (c : N) :
  In p (split sep s) -> In c p -> In c s.
Proof.
  revert p. induction s as [|d r IH]; intros p; simpl.
  - intros [<- | []] [].
  - destruct (d =? sep)%N.
    + intros [<- | Hp] Hc; [destruct Hc | right; eauto].
    + destruct (split sep r) as [|piece rest] eqn:E.
      * intros [<- | []] [-> | []]. now left.
      * intros [<- | Hp] Hc.
        -- destruct Hc as [-> | Hc]; [now left | right].
           apply (IH piece); [now left | exact Hc].
        -- right. apply (IH p); [now right | exact Hc].
Qed.

Lemma split_app_sep (sep : N) (a b : jsstring) :
  split sep (a ++ sep :: b)
  = removelast (split sep a) ++ [last (split sep a) []] ++ split sep b.
Proof.
  induction a as [|c a IH]; simpl.
  - now rewrite N.eqb_refl.
  - destruct (c =? sep)%N eqn:E.
    + rewrite IH. destruct (split sep a) eqn:S; [now apply split_nonempty in S|].
      reflexivity.
    + rewrite IH.
      destruct (split sep a) as [|piece rest] eqn:S; [now apply split_nonempty in S|].
      destruct rest as [|p2 rest]; reflexivity.
Qed.

Lemma split_append_values (sep : N) (a b : jsstring) :
  split sep (a ++ sep :: b) = split sep a ++ split sep b.
Proof.
  rewrite split_app_sep.
  rewrite app_assoc. f_equal. symmetry.
  apply app_removelast_last. apply split_nonempty.
Qed.

Lemma dropWhile_In (p : N -> bool) (s : jsstring) (c : N) :
  In c (dropWhile p s) -> In c s.
Proof.
  induction s as [|d s IH]; simpl; [tauto|].
  destruct (p d); simpl; tauto.
Qed.

Lemma trim_In (s : jsstring) (c : N) : In c (trim s) -> In c s.
Proof.
  unfold trim, trimEnd, trimStart. intros H.
  apply in_rev, dropWhile_In in H. apply in_rev in H.
  now apply dropWhile_In in H.
Qed.

Lemma dropWhile_idem (p : N -> bool) (s : jsstring) :
  dropWhile p (dropWhile p s) = dropWhile p s.
Proof.
  induction s as [|d s IH]; simpl; [reflexivity|].
  destruct (p d) eqn:E; [exact IH|]. simpl. now rewrite E.
Qed.

Lemma dropWhile_prefix_split (p : N -> bool) (s : jsstring) :
  exists pre, s = pre ++ dropWhile p s.
Proof.
  induction s as [|d s [pre E]]; simpl.
  - now exists [].
  - destruct (p d); [exists (d :: pre); simpl; congruence | now exists []].
Qed.

Lemma trimEnd_keeps_start (t : jsstring) :
  dropWhile isWhiteSpace t = t ->
  dropWhile isWhiteSpace (trimEnd t) = trimEnd t.
Proof.
  intros H. unfold trimEnd.
  destruct (dropWhile_prefix_split isWhiteSpace (rev t)) as [pre E].
  assert (T : t = rev (dropWhile isWhiteSpace (rev t)) ++ rev pre).
  { rewrite <- rev_app_distr, <- E. now rewrite rev_involutive. }
  destruct (rev (dropWhile isWhiteSpace (rev t))) as [|c r]; [reflexivity|].
  simpl. destruct (isWhiteSpace c) eqn:W; [|reflexivity].
  exfalso. subst t. simpl in H. rewrite W in H.
  assert (L := f_equal (@length N) H). simpl in L.
  destruct (dropWhile_prefix_split isWhiteSpace (r ++ rev pre)) as [q Q].
  assert (L2 := f_equal (@length N) Q). rewrite (length_app q) in L2. lia.
Qed.

Lemma trim_idem (s : jsstring) : trim (trim s) = trim s.
Proof.
  assert (S1 : trimStart (trim s) = trim s).
  { unfold trim at 1 2. apply trimEnd_keeps_start. apply dropWhile_idem. }
  unfold trim at 1. rewrite S1. unfold trim, trimEnd.
  rewrite rev_involutive, dropWhile_idem. reflexivity.
Qed.

Lemma noLineBreak_iff (s : jsstring) :
  noLineBreak s = true <-> ~ In LF s /\ ~ In CR s.
Proof.
  unfold noLineBreak. rewrite forallb_forall. split.
  - intros H. split; intros I; apply H in I; discriminate I.
  - intros [H1 H2] c Hc. apply negb_true_iff, orb_false_iff.
    split; apply N.eqb_neq; intros ->; tauto.
Qed.

Lemma replaceCR_no_CR (s : jsstring) : ~ In CR (replaceCR s).
Proof.
  unfold replaceCR. rewrite in_map_iff. intros (c & E & _).
  destruct (c =? CR)%N eqn:C; [discriminate E|].
  apply N.eqb_neq in C. congruence.
Qed.

Lemma normalized_lines_noLineBreak (text line : jsstring) :
  In line (split LF (normalize text)) -> noLineBreak line = true.
Proof.
  intros H. apply noLineBreak_iff. split.
  - pose proof (split_pieces_no_sep LF (normalize text)) as F.
    rewrite Forall_forall in F. now apply F.
  - intros I. apply (replaceCR_no_CR (replaceCRLF (trim text))).
    now apply (split_pieces_chars LF _ line CR H).
Qed.

Lemma trimmed_piece_clean (line piece : jsstring) :
  noLineBreak line = true -> In piece (split COMMA line) -> clean (trim piece).
Proof.
  intros L P. split; [apply trim_idem|]. split.
  - intros I. apply trim_In in I.
    pose proof (split_pieces_no_sep COMMA line) as F.
    rewrite Forall_forall in F. now apply (F piece P).
  - apply noLineBreak_iff. apply noLineBreak_iff in L. destruct L as [L1 L2].
    split; intros I; apply trim_In in I;
      apply (split_pieces_chars COMMA line piece _ P) in I; tauto.
Qed.

Lemma clean_empty : clean [].
Proof. repeat split. intros []. Qed.

Lemma valueAt_clean (line : jsstring) (i : nat) :
  noLineBreak line = true ->
  clean (valueAt (List.map trim (split COMMA line)) i).
Proof.
  intros L. unfold valueAt. rewrite nth_error_map.
  destruct (nth_error (split COMMA line) i) as [piece|] eqn:E; simpl.
  - apply (trimmed_piece_clean line piece L). eapply nth_error_In, E.
  - apply clean_empty.
Qed.

Lemma coerce_string_of (val s : jsstring) : coerce val = VStr s -> s = val.
Proof.
  unfold coerce. destruct (Number val) as [n|].
  - destruct (streq val []); [congruence | discriminate].
  - congruence.
Qed.

Lemma fold_set_entries {A} (entries : list (jsstring * A)) (o : object A) (kv : jsstring * A) :
  In kv (fold_left (fun o kv => obj_set (fst kv) (snd kv) o) entries o) ->
  In kv entries \/ In kv o.
Proof.
  revert o. induction entries as [|[k' v] r IH]; intros o; simpl; [tauto|].
  intros H. apply IH in H as [H|H]; [left; now right|].
  assert (S : forall o', In kv (obj_set k' v o') -> kv = (k', v) \/ In kv o').
  { induction o' as [|[k0 v0] o' IHo]; simpl.
    - intros [I|[]]. now left.
    - destruct (streq k0 k') eqn:E; simpl.
      + apply streq_eq in E. subst k0. intros [I|I]; [now left | tauto].
      + intros [I|I]; [tauto|]. apply IHo in I. tauto. }
  apply S in H. destruct H as [H|H]; [left; left; now symmetry | now right].
Qed.

Lemma mapi_from_In {A B} (f : A -> nat -> B) (l : list A) (k : nat) (y : B) :
  In y (mapi_from f k l) -> exists x i, In x l /\ y = f x i.
Proof.
  revert k. induction l as [|x l IH]; intros k; simpl; [tauto|].
  intros [<- | H].
  - exists x, k. auto.
  - destruct (IH _ H) as (x' & i & Hx & E). exists x', i. auto.
Qed.

Lemma mapi_from_keys {A B} (f : A -> nat -> B) (l : list A) (k : nat) :
  List.map fst (mapi_from (fun x i => (x, f x i)) k l) = l.
Proof.
  revert k. induction l as [|x l IH]; intros k; simpl; [reflexivity|].
  now rewrite IH.
Qed.

Lemma mapi_from_ext {A B} (f g : A -> nat -> B) (l : list A) (k : nat) :
  (forall x i, (k <= i < k + length l)%nat -> f x i = g x i) ->
  mapi_from f k l = mapi_from g k l.
Proof.
  revert k. induction l as [|x l IH]; intros k H; simpl; [reflexivity|].
  f_equal.
  - apply H. simpl. lia.
  - apply IH. intros y i Hi. apply H. simpl. lia.
Qed.

Lemma fold_set_keys {A} (entries : list (jsstring * A)) (o : object A) :
  List.map fst (fold_left (fun o kv => obj_set (fst kv) (snd kv) o) entries o)
  = List.map fst o
    ++ List.filter (fun k => negb (mem k (List.map fst o)))
         (firstSeen (List.map fst entries)).
Proof.
  revert o. induction entries as [|[k v] r IH]; intros o; simpl.
  - now rewrite app_nil_r.
  - rewrite IH, filter_filter. rewrite mem_keys.
    destruct (obj_get o k) as [w|] eqn:G.
    + rewrite (obj_set_keys_present k v o w G). f_equal. simpl.
      apply filter_ext_in. intros l _.
      destruct (streq l k) eqn:E; simpl; [|reflexivity].
      apply streq_eq in E. subst l. now rewrite mem_keys, G.
    + rewrite (obj_set_keys_fresh k v o G). rewrite <- app_assoc. simpl.
      do 2 f_equal. apply filter_ext. intros l. rewrite mem_app. simpl.
      unfold mem at 2. simpl. rewrite orb_false_r, negb_orb. apply andb_comm.
Qed.

Lemma lineRecord_keys (headers : list jsstring) (line : jsstring) :
  List.map fst (lineRecord headers line) = firstSeen headers.
Proof.
  unfold lineRecord, Object_fromEntries. rewrite fold_set_keys. simpl.
  unfold lineEntries, mapi. rewrite mapi_from_keys.
  induction (firstSeen headers); simpl; congruence.
Qed.

Lemma lastEntry_absent {A} (k : jsstring) (entries : list (jsstring * A)) (d : option A) :
  ~ In k (List.map fst entries) -> lastEntry k entries d = d.
Proof.
  revert d. induction entries as [|[k' v] r IH]; intros d; simpl; [reflexivity|].
  intros H. rewrite IH by tauto.
  destruct (streq k' k) eqn:E; [|reflexivity].
  apply streq_eq in E. subst. tauto.
Qed.

End ParserMore.
Import ParserMore.

Module FieldClaims.

Lemma skipn_past_column (before after : list jsstring) (h : jsstring) :
  skipn (S (length before)) (before ++ h :: after) = after.
Proof. induction before as [|x before IH]; simpl; [reflexivity | exact IH]. Qed.

Lemma record_holds_last_column (before after : list jsstring) (h line : jsstring) :
  ~ In h after ->
  obj_get (lineRecord (before ++ h :: after) line) h
  = Some (coerce (trim (nth (length before) (split COMMA line) []))).
Proof.
  intros H. unfold lineRecord, Object_fromEntries.
  rewrite obj_get_fold_set. simpl.
  unfold lineEntries, mapi. rewrite mapi_from_app, lastEntry_app. simpl.
  rewrite streq_refl, valueAt_trim.
  apply lastEntry_absent.
  now rewrite (mapi_from_keys (fun h i => coerce (valueAt _ i))).
Qed.

(** The field in column [i] of one line, when no later column has the
    same header, and what the record of the line can hold at all. *)
Lemma line_field_stored
  (headers : list jsstring) (line : jsstring) (i : nat) (h : jsstring) :
  nth_error headers i = Some h ->
  ~ In h (skipn (S i) headers) ->
  obj_get (lineRecord headers line) h
  = Some (coerce (trim (nth i (split COMMA line) []))).
Proof.
  intros Hh Hlast.
  destruct (nth_error_split headers i Hh) as (before & after & E & L).
  subst headers i. rewrite skipn_past_column in Hlast.
  now apply record_holds_last_column.
Qed.

Lemma line_record_origin
  (headers : list jsstring) (line k : jsstring) (w : value) :
  obj_get (lineRecord headers line) k = Some w ->
  exists j,
    nth_error headers j = Some k
    /\ w = coerce (trim (nth j (split COMMA line) [])).
Proof.
  intros G. unfold lineRecord, Object_fromEntries in G.
  rewrite obj_get_fold_set in G. simpl in G.
  apply lastEntry_Some in G as [G | [j G]]; [discriminate|].
  exists j. unfold lineEntries, mapi in G.
  rewrite nth_error_mapi_from in G.
  destruct (nth_error headers j) as [h'|]; [|discriminate].
  simpl in G. injection G as -> <-. split; [reflexivity|].
  now rewrite valueAt_trim.
Qed.

(** C1, as the code has it. Take data line [n] of a text and its field
    in column [i], under a header name that does not come again in a
    later column (a column the line has no value for holds the empty
    field), and let [val] be the trimmed text of the field. The parse
    has one record per data line, and record [n] stores a value under
    that header: a number exactly when [val] is non-empty and
    [Number(val)] is not NaN, and otherwise the string [val] itself; it
    is never [undefined]. Besides, whatever that record stores under any
    key is the value so decided by the field of some column with that
    header. *)
Theorem field_stored_number_iff_numeric
  (text line : jsstring) (n i : nat) (h : jsstring) :
  nth_error (dataLinesOf text) n = Some line ->
  nth_error (headersOf text) i = Some h ->
  ~ In h (skipn (S i) (headersOf text)) ->
  let val := trim (nth i (split COMMA line) []) in
  exists records r v,
    parseCSV text = Normal records
    /\ length records = length (dataLinesOf text)
    /\ nth_error records n = Some r
    /\ obj_get r h = Some v
    /\ (isNumber v = true <-> val <> [] /\ isNaN (Number val) = false)
    /\ (isNumber v = false -> v = VStr val)
    /\ v <> VUndef
    /\ (forall k w,
          obj_get r k = Some w ->
          exists j,
            nth_error (headersOf text) j = Some k
            /\ w = coerce (trim (nth j (split COMMA line) []))
            /\ w <> VUndef).
Proof.
  intros Hl Hh Hlast val. unfold dataLinesOf, headersOf in *.
  destruct (split LF (normalize text)) as [|hl lines] eqn:E.
  { now apply split_nonempty in E. }
  simpl in Hl, Hh, Hlast. simpl hd. simpl tl.
  exists (List.map (lineRecord (List.map trim (split COMMA hl)))
            (List.filter (fun l => truthyString (trim l)) lines)).
  exists (lineRecord (List.map trim (split COMMA hl)) line), (coerce val).
  split; [exact (parseCSV_lines text hl lines E)|].
  split; [apply length_map|].
  split; [rewrite nth_error_map, Hl; reflexivity|].
  split; [subst val; now apply line_field_stored|].
  split; [apply coerce_number_iff|].
  split; [apply coerce_string|].
  split; [apply coerce_defined|].
  intros k w G. apply line_record_origin in G as (j & Hj & ->).
  exists j. split; [exact Hj|]. split; [reflexivity | apply coerce_defined].
Qed.

Lemma field_stored_number_iff_numeric_witness :
  exists records r v,
    parseCSV (str "Country,Gold" ++ newline ++ str "Norway, 5") = Normal records
    /\ length records
       = length (dataLinesOf (str "Country,Gold" ++ newline ++ str "Norway, 5"))
    /\ nth_error records 0 = Some r
    /\ obj_get r (str "Gold") = Some v
    /\ (isNumber v = true <->
        trim (nth 1 (split COMMA (str "Norway, 5")) []) <> []
        /\ isNaN (Number (trim (nth 1 (split COMMA (str "Norway, 5")) []))) = false)
    /\ (isNumber v = false ->
        v = VStr (trim (nth 1 (split COMMA (str "Norway, 5")) [])))
    /\ v <> VUndef
    /\ (forall k w,
          obj_get r k = Some w ->
          exists j,
            nth_error (headersOf (str "Country,Gold" ++ newline ++ str "Norway, 5")) j
            = Some k
            /\ w = coerce (trim (nth j (split COMMA (str "Norway, 5")) []))
            /\ w <> VUndef).
Proof.
  apply (field_stored_number_iff_numeric
           (str "Country,Gold" ++ newline ++ str "Norway, 5")
           (str "Norway, 5") 0 1 (str "Gold")).
  - vm_compute. reflexivity.
  - vm_compute. reflexivity.
  - vm_compute. intros [].
Defined.

(** C1 as the spec words it fails on the header line [a,a] and the data
    line [5,x]: the first field of the one data line, [5], is non-empty
    and numeric, yet the one record of the parse stores no number at
    all; under the field's header it holds the string [x] of the later
    column of the same name. *)
Lemma duplicate_header_field_is_not_stored :
  headersOf duplicateHeaderCsv = [str "a"; str "a"]
  /\ dataLinesOf duplicateHeaderCsv = [str "5,x"]
  /\ trim (nth 0 (split COMMA (str "5,x")) []) = str "5"
  /\ str "5" <> []
  /\ isNaN (Number (str "5")) = false
  /\ parseCSV duplicateHeaderCsv = Normal [[(str "a", VStr (str "x"))]]
  /\ (forall r k v,
        parseCSV duplicateHeaderCsv = Normal [r] ->
        obj_get r k = Some v -> isNumber v = false).
Proof.
  split; [vm_compute; reflexivity|].
  split; [vm_compute; reflexivity|].
  split; [vm_compute; reflexivity|].
  split; [vm_compute; intros E; discriminate E|].
  split; [vm_compute; reflexivity|].
  split; [vm_compute; reflexivity|].
  intros r k v P G.
  assert (P' : parseCSV duplicateHeaderCsv = Normal [[(str "a", VStr (str "x"))]])
    by (vm_compute; reflexivity).
  rewrite P' in P. injection P as <-.
  change (obj_get [(str "a", VStr (str "x"))] k)
    with (if streq (str "a") k then Some (VStr (str "x")) else @None value) in G.
  destruct (streq (str "a") k); [|discriminate G].
  injection G as <-. reflexivity.
Qed.

End FieldClaims.

Module ParserExtras.

(** X1. A text that is a single line once trimmed (the empty text, a
    header alone, a header followed only by blank lines) parses to no
    record. *)
Theorem header_only_gives_no_record (text : jsstring) :
  noLineBreak (trim text) = true -> parseCSV text = Normal [].
Proof.
  intros H. rewrite (parseCSV_lines text (trim text) []); [reflexivity|].
  unfold normalize. now apply lines_last.
Qed.

Lemma header_only_gives_no_record_witness :
  parseCSV (str "Country,Gold" ++ [CR; LF] ++ str "  " ++ [LF]) = Normal [].
Proof.
  apply (header_only_gives_no_record
           (str "Country,Gold" ++ [CR; LF] ++ str "  " ++ [LF])).
  vm_compute. reflexivity.
Defined.

(** X2. All records of a parse have the same keys, the header names of
    the text (the trimmed comma-separated pieces of its first line):
    a record has a field under a name exactly when that name is a header
    name, and as many fields as there are distinct header names, however
    many values its line carries. *)
Theorem records_share_header_keys (text : jsstring) :
  exists records,
    parseCSV text = Normal records
    /\ Forall
         (fun r =>
            (forall k, In k (headersOf text) <-> exists v, obj_get r k = Some v)
            /\ length r = length (firstSeen (headersOf text)))
         records.
Proof.
  unfold headersOf.
  destruct (split LF (normalize text)) as [|hl lines] eqn:E.
  - now apply split_nonempty in E.
  - eexists. split; [exact (parseCSV_lines text hl lines E)|].
    apply Forall_forall. intros r Hr.
    apply in_map_iff in Hr as (line & <- & _). simpl hd.
    pose proof (lineRecord_keys (List.map trim (split COMMA hl)) line) as K.
    split.
    + intros k. rewrite <- (firstSeen_In (List.map trim (split COMMA hl)) k), <- K.
      pose proof (mem_keys (lineRecord (List.map trim (split COMMA hl)) line) k) as M.
      unfold mem in M. split.
      * intros Hin.
        destruct (obj_get (lineRecord (List.map trim (split COMMA hl)) line) k) as [v|];
          [now exists v|].
        exfalso. apply not_true_iff_false in M. apply M.
        apply existsb_exists. exists k. split; [exact Hin | apply streq_refl].
      * intros [v Hv]. rewrite Hv in M.
        apply existsb_exists in M as (k' & Hin & Ek).
        apply streq_eq in Ek. now subst k'.
    + rewrite <- K. symmetry. apply length_map.
Qed.

(** X3. When a header name occurs in several columns, the record keeps
    the value of the last of them. *)
Theorem last_duplicate_header_wins
  (before after : list jsstring) (h line : jsstring) :
  ~ In h after ->
  obj_get (lineRecord (before ++ h :: after) line) h
  = Some (coerce (trim (nth (length before) (split COMMA line) []))).
Proof.
  intros H. unfold lineRecord, Object_fromEntries.
  rewrite obj_get_fold_set. simpl.
  unfold lineEntries, mapi. rewrite mapi_from_app, lastEntry_app. simpl.
  rewrite streq_refl, valueAt_trim.
  apply lastEntry_absent.
  now rewrite (mapi_from_keys (fun h i => coerce (valueAt _ i))).
Qed.

Lemma last_duplicate_header_wins_witness :
  obj_get (lineRecord ([str "Gold"; str "Country"] ++ str "Gold" :: [str "Total"])
             (str "1,Norway,7,9"))
    (str "Gold")
  = Some (coerce (trim (nth 2 (split COMMA (str "1,Norway,7,9")) []))).
Proof.
  apply (last_duplicate_header_wins
           [str "Gold"; str "Country"] [str "Total"] (str "Gold") (str "1,Norway,7,9")).
  vm_compute. intros [H | []]. discriminate H.
Defined.

(** X4. Every key and every string value of a parsed record is trimmed
    and contains neither a comma nor a line break. *)
Theorem stored_strings_are_clean
  (text : jsstring) (records : list record) (r : record) (k : jsstring) (v : value) :
  parseCSV text = Normal records ->
  In r records -> In (k, v) r ->
  clean k /\ (forall s, v = VStr s -> clean s).
Proof.
  intros P Hr Hkv.
  destruct (split LF (normalize text)) as [|hl lines] eqn:E;
    [now apply split_nonempty in E|].
  rewrite (parseCSV_lines text hl lines E) in P. injection P as <-.
  apply in_map_iff in Hr as (line & <- & Hl).
  apply filter_In in Hl as [Hl _].
  assert (Lh : noLineBreak hl = true).
  { apply (normalized_lines_noLineBreak text). rewrite E. now left. }
  assert (Ll : noLineBreak line = true).
  { apply (normalized_lines_noLineBreak text). rewrite E. now right. }
  unfold lineRecord, Object_fromEntries in Hkv.
  apply fold_set_entries in Hkv as [Hkv | []].
  unfold lineEntries, mapi in Hkv.
  apply mapi_from_In in Hkv as (x & i & Hx & Ekv). injection Ekv as -> ->.
  split.
  - apply in_map_iff in Hx as (piece & <- & Hp).
    now apply (trimmed_piece_clean hl piece).
  - intros s Es. apply coerce_string_of in Es. subst s.
    now apply valueAt_clean.
Qed.

Lemma stored_strings_are_clean_witness :
  clean (str "Country") /\
  (forall s, VStr (str "Norway") = VStr s -> clean s).
Proof.
  apply (stored_strings_are_clean
           (str " Country , Gold " ++ [CR; LF] ++ str " Norway ,5")
           [[(str "Country", VStr (str "Norway")); (str "Gold", VNum (Fin 5))]]
           [(str "Country", VStr (str "Norway")); (str "Gold", VNum (Fin 5))]
           (str "Country") (VStr (str "Norway"))).
  - vm_compute. reflexivity.
  - left. reflexivity.
  - left. reflexivity.
Defined.

(** X5. Values beyond the last header are ignored: appending further
    comma-separated values to a line that already has one value per
    header leaves its record unchanged. *)
Theorem extra_values_are_dropped
  (headers : list jsstring) (line extra : jsstring) :
  (length headers <= length (split COMMA line))%nat ->
  lineRecord headers (line ++ COMMA :: extra) = lineRecord headers line.
Proof.
  intros H. unfold lineRecord, lineEntries, mapi. f_equal.
  apply mapi_from_ext. intros x i Hi. f_equal. f_equal.
  rewrite split_append_values, map_app. unfold valueAt.
  rewrite nth_error_app1; [reflexivity|]. rewrite length_map. lia.
Qed.

Lemma extra_values_are_dropped_witness :
  lineRecord [str "Country"; str "Gold"] (str "Norway,5" ++ COMMA :: str "x,y")
  = lineRecord [str "Country"; str "Gold"] (str "Norway,5").
Proof.
  apply (extra_values_are_dropped [str "Country"; str "Gold"] (str "Norway,5") (str "x,y")).
  vm_compute. lia.
Defined.

(** X6. A field made of decimal digits only is stored as the number it
    spells; below 2^53 it is a medal count in the sense the top-5 sort
    relies on. *)
Theorem digit_field_is_count (c : N) (r : jsstring) :
  forallb isDigit (c :: r) = true ->
  (Z.of_N (decimalValue (c :: r)) < 2 ^ 53)%Z ->
  isCount (coerce (c :: r)) (Z.of_N (decimalValue (c :: r))).
Proof.
  intros D B. rewrite (coerce_digits c r D). unfold scaled.
  eexists. split; [reflexivity|]. split.
  - unfold pow10. simpl. apply Qmult_1_r.
  - split; [apply N2Z.is_nonneg | exact B].
Qed.

Lemma digit_field_is_count_witness :
  isCount (coerce (str "12")) (Z.of_N (decimalValue (str "12"))).
Proof.
  apply (digit_field_is_count 49 [50%N]).
  - vm_compute. reflexivity.
  - vm_compute. reflexivity.
Defined.

End ParserExtras.

(* ------------------------------------------------------------------ *)
(** ** More about the pivot *)

Module PivotExtras.

Lemma firstSeen_app (l1 l2 : list jsstring) :
  firstSeen (l1 ++ l2)
  = firstSeen l1 ++ List.filter (fun y => negb (mem y l1)) (firstSeen l2).
Proof.
  induction l1 as [|x l1 IH]; simpl.
  - induction (firstSeen l2); simpl; congruence.
  - f_equal. rewrite IH, filter_app, filter_filter. f_equal.
    apply filter_ext. intros y. unfold mem. simpl.
    rewrite negb_orb. apply andb_comm.
Qed.

Section WithHost.
Variable host : Host.

Lemma fold_point_fields (l k : jsstring) (v : value) (rows : list record) (p : point) :
  obj_get
    (fold_left
       (fun p r =>
          if streq (labelOf host r) l
          then Put p (countryKey host r) (goldOf r) else p) rows p) k = Some v ->
  obj_get p k = Some v
  \/ exists r, In r rows /\ labelOf host r = l
               /\ countryKey host r = k /\ goldOf r = v.
Proof.
  revert p. induction rows as [|r rows IH]; intros p; simpl; [now left|].
  intros H. apply IH in H as [H | (r' & Hr & E)].
  - destruct (streq (labelOf host r) l) eqn:El; [|now left].
    apply streq_eq in El. unfold Put in H.
    destruct (streq (countryKey host r) (str "__proto__")); [now left|].
    destruct (streq (countryKey host r) k) eqn:Ek.
    + apply streq_eq in Ek. subst k. rewrite obj_get_set_same in H.
      injection H as <-. right. exists r. auto.
    + apply streq_neq in Ek. rewrite obj_get_set_other in H by exact Ek.
      now left.
  - right. exists r'. tauto.
Qed.

Lemma unlabelled_rows_keep_point (l : jsstring) (more : list record) (p : point) :
  ~ In l (List.map (labelOf host) more) ->
  fold_left
    (fun p r =>
       if streq (labelOf host r) l
       then Put p (countryKey host r) (goldOf r) else p) more p = p.
Proof.
  revert p. induction more as [|r more IH]; intros p; simpl; [reflexivity|].
  intros H. destruct (streq (labelOf host r) l) eqn:E.
  - apply streq_eq in E. tauto.
  - apply IH. tauto.
Qed.

Lemma other_keys_keep_date (l : jsstring) (rows : list record) (p : point) :
  (forall r, In r rows -> countryKey host r <> str "date") ->
  obj_get
    (fold_left
       (fun p r =>
          if streq (labelOf host r) l
          then Put p (countryKey host r) (goldOf r) else p) rows p) (str "date")
  = obj_get p (str "date").
Proof.
  revert p. induction rows as [|r rows IH]; intros p H; simpl; [reflexivity|].
  rewrite IH by (intros r' Hr'; apply H; now right).
  destruct (streq (labelOf host r) l); [|reflexivity].
  unfold Put. destruct (streq (countryKey host r) (str "__proto__")); [reflexivity|].
  apply obj_get_set_other. apply H. now left.
Qed.

End WithHost.

(** X7. A point never holds anything the records did not put there. The
    point at position [i] of the output belongs to the label at position
    [i] of the distinct labels in first-seen order, and each of its
    fields is its [date], holding that label, or the country and Gold
    value of a record carrying that label. *)
Theorem point_fields_come_from_records
  (host : Host) (rows : list record) (i : nat) (p : point) :
  nth_error (buildHistoryChartData host rows) i = Some p ->
  exists l,
    nth_error (firstSeen (List.map (labelOf host) rows)) i = Some l
    /\ forall k v,
         obj_get p k = Some v ->
         (k = str "date" /\ v = VStr l)
         \/ exists r, In r rows /\ labelOf host r = l
                      /\ countryKey host r = k /\ goldOf r = v.
Proof.
  rewrite buildHistoryChartData_points, nth_error_map. intros Hp.
  destruct (nth_error (firstSeen (List.map (labelOf host) rows)) i) as [l|];
    [|discriminate Hp].
  simpl in Hp. injection Hp as <-.
  exists l. split; [reflexivity|]. intros k v Hg.
  unfold pointOf in Hg. apply fold_point_fields in Hg as [Hg | Hg]; [|now right].
  left.
  change (obj_get [(str "date", VStr l)] k)
    with (if streq (str "date") k then Some (VStr l) else @None value) in Hg.
  destruct (streq (str "date") k) eqn:E; [|discriminate Hg].
  apply streq_eq in E. injection Hg as <-. auto.
Qed.

Lemma point_fields_come_from_records_witness :
  exists l,
    nth_error
      (firstSeen
         (List.map (labelOf sampleHost)
            [historyRow "2026-02-09" "Norway" 3; historyRow "2026-02-10" "Norway" 4]))
      1 = Some l
    /\ forall k v,
         obj_get
           [(str "date", VStr (str "Feb 10")); (str "Norway", VNum (Fin (inject_Z 4)))]
           k = Some v ->
         (k = str "date" /\ v = VStr l)
         \/ exists r,
              In r [historyRow "2026-02-09" "Norway" 3;
                    historyRow "2026-02-10" "Norway" 4]
              /\ labelOf sampleHost r = l
              /\ countryKey sampleHost r = k /\ goldOf r = v.
Proof.
  apply (point_fields_come_from_records sampleHost
           [historyRow "2026-02-09" "Norway" 3; historyRow "2026-02-10" "Norway" 4]
           1
           [(str "date", VStr (str "Feb 10")); (str "Norway", VNum (Fin (inject_Z 4)))]).
  vm_compute. reflexivity.
Defined.

(** X8. When no record has a country spelled [date], the [date] fields
    of the output, read in order, are the distinct labels in first-seen
    order: every point shows its own label and no two points share
    one. *)
Theorem date_fields_are_the_labels (host : Host) (rows : list record) :
  (forall r, In r rows -> countryKey host r <> str "date") ->
  List.map (fun p => obj_get p (str "date")) (buildHistoryChartData host rows)
  = List.map (fun l => Some (VStr l)) (firstSeen (List.map (labelOf host) rows)).
Proof.
  intros H. rewrite buildHistoryChartData_points, map_map.
  apply map_ext. intros l. unfold pointOf.
  now rewrite (other_keys_keep_date host l rows _ H).
Qed.

Lemma date_fields_are_the_labels_witness :
  List.map (fun p => obj_get p (str "date"))
    (buildHistoryChartData sampleHost
       [historyRow "2026-02-10" "Norway" 5; historyRow "2026-02-09" "Norway" 3])
  = List.map (fun l => Some (VStr l))
      (firstSeen (List.map (labelOf sampleHost)
         [historyRow "2026-02-10" "Norway" 5; historyRow "2026-02-09" "Norway" 3])).
Proof.
  apply (date_fields_are_the_labels sampleHost
           [historyRow "2026-02-10" "Norway" 5; historyRow "2026-02-09" "Norway" 3]).
  intros r [<- | [<- | []]]; vm_compute; intros E; discriminate E.
Defined.

(** X9. Feeding more records after [rows] keeps every existing point at
    its position and only appends points for labels not met before; a
    point whose label none of the new records carries is unchanged. *)
Theorem appended_records_extend_the_output
  (host : Host) (rows more : list record) :
  exists fresh,
    buildHistoryChartData host (rows ++ more)
    = List.map (fun l => pointOf host l (rows ++ more))
        (firstSeen (List.map (labelOf host) rows) ++ fresh)
    /\ (forall l, In l fresh -> ~ In l (List.map (labelOf host) rows))
    /\ (forall l, ~ In l (List.map (labelOf host) more) ->
                  pointOf host l (rows ++ more) = pointOf host l rows).
Proof.
  exists (List.filter (fun y => negb (mem y (List.map (labelOf host) rows)))
            (firstSeen (List.map (labelOf host) more))).
  split; [|split].
  - rewrite buildHistoryChartData_points. now rewrite map_app, firstSeen_app.
  - intros l Hl Hin. apply filter_In in Hl as [_ Hl].
    apply negb_true_iff in Hl.
    assert (M : mem l (List.map (labelOf host) rows) = true).
    { unfold mem. apply existsb_exists. exists l. split; [exact Hin | apply streq_refl]. }
    congruence.
  - intros l Hl. unfold pointOf. rewrite fold_left_app.
    now apply unlabelled_rows_keep_point.
Qed.

End PivotExtras.

(* ------------------------------------------------------------------ *)
(** ** More about the top-5 list and the totals *)

Module RankingExtras.

Lemma StronglySorted_app_cross {A} (R : A -> A -> Prop) (l1 l2 : list A) :
  StronglySorted R (l1 ++ l2) ->
  forall a b, In a l1 -> In b l2 -> R a b.
Proof.
  induction l1 as [|x l1 IH]; simpl; [tauto|].
  intros H a b Ha Hb. apply StronglySorted_inv in H as [Hs Hx].
  destruct Ha as [<- | Ha].
  - rewrite Forall_forall in Hx. apply Hx. apply in_or_app. now right.
  - now apply (IH Hs).
Qed.

Lemma sort_sorted_input (latest : list record) :
  Forall hasGoldCount latest ->
  descendingBy goldCount latest ->
  sort byGoldDesc latest = latest.
Proof.
  intros G D. induction D as [|x l D IH Hx]; [reflexivity|].
  apply Forall_cons_iff in G as [Gx Gl].
  cbn [sort fold_right]. fold (sort byGoldDesc l). rewrite (IH Gl).
  destruct l as [|y l']; [reflexivity|].
  cbn [insertSorted].
  apply Forall_cons_iff in Gl as [Gy _].
  rewrite (byGoldDesc_counts x y Gx Gy).
  apply Forall_cons_iff in Hx as [Hy _]. cbv beta in Hy.
  destruct (goldCount y ?= goldCount x)%Z eqn:E; try reflexivity.
  apply (proj1 (Z.compare_gt_iff _ _)) in E. lia.
Qed.

(** X10. When the latest records already come in descending order of
    Gold (as a medal table does), sorting changes nothing and the top-5
    list is the country names of the first five rows. *)
Theorem ranked_input_keeps_its_order (latest : list record) :
  Forall hasGoldCount latest ->
  descendingBy goldCount latest ->
  top5Of latest
  = List.map (fun r => Get r (str "Country")) (firstn 5 latest).
Proof.
  intros G D. unfold top5Of. now rewrite (sort_sorted_input latest G D).
Qed.

(** X11. With Gold counts on every record, no record left out of the
    top five has more Gold than a record taken into it. *)
Theorem top5_dominates_the_rest (latest : list record) (a b : record) :
  Forall hasGoldCount latest ->
  In a (firstn 5 (sort byGoldDesc latest)) ->
  In b (skipn 5 (sort byGoldDesc latest)) ->
  (goldCount b <= goldCount a)%Z.
Proof.
  intros G Ha Hb.
  pose proof (sort_descending byGoldDesc goldCount hasGoldCount
                byGoldDesc_counts latest G) as D.
  unfold descendingBy in D.
  rewrite <- (firstn_skipn 5 (sort byGoldDesc latest)) in D.
  exact (StronglySorted_app_cross _ _ _ D a b Ha Hb).
Qed.

(** X12. The top-5 list has five entries, or as many as there are latest
    records when there are fewer, and each entry is the Country field of
    a latest record; this holds whatever the Gold fields contain. *)
Theorem top5_length_and_origin (latest : list record) :
  length (top5Of latest) = Nat.min 5 (length latest)
  /\ forall c, In c (top5Of latest) ->
               exists r, In r latest /\ Get r (str "Country") = c.
Proof.
  unfold top5Of. split.
  - rewrite length_map, length_firstn.
    now rewrite (Permutation_length (sort_perm byGoldDesc latest)).
  - intros c Hc. apply in_map_iff in Hc as (r & E & Hr).
    exists r. split; [|exact E].
    apply (Permutation_in r (sort_perm byGoldDesc latest)).
    rewrite <- (firstn_skipn 5 (sort byGoldDesc latest)).
    apply in_or_app. now left.
Qed.

Section WithHost.
Variable host : Host.

Lemma total_from_string (field : jsstring) (rows : list record) (t : jsstring) :
  exists u,
    fold_left (fun s r => plus host s (Get r field)) rows (SStr t) = SStr u.
Proof.
  revert t. induction rows as [|r rows IH]; intros t; simpl; [now exists t|].
  apply IH.
Qed.

Lemma total_from_count (field : jsstring) (rows : list record) (q : Q) (z : Z) :
  (q == inject_Z z)%Q ->
  Forall (fun r => exists c, isCount (Get r field) c) rows ->
  exists q',
    fold_left (fun s r => plus host s (Get r field)) rows (SNum (Some (Fin q)))
    = SNum (Some (Fin q'))
    /\ (q' == inject_Z (z + sumZ (List.map (fieldCount field) rows)))%Q.
Proof.
  intros Hq F. revert q z Hq.
  induction F as [|r rows (c & qc & E & Hc & _) _ IH]; intros q z Hq; simpl.
  - exists q. split; [reflexivity|]. now rewrite Z.add_0_r.
  - rewrite E. simpl.
    destruct (IH (q + qc)%Q (z + c)%Z) as (q' & E' & Hq').
    + rewrite Hq, Hc. now rewrite inject_Z_plus.
    + exists q'. split; [exact E'|]. rewrite Hq'.
      unfold fieldCount at 2. rewrite E, Hc, Qfloor_Z.
      now rewrite Z.add_assoc.
Qed.

Lemma total_nan (field : jsstring) (rows : list record) :
  Forall (fun r => forall s, Get r field <> VStr s) rows ->
  fold_left (fun s r => plus host s (Get r field)) rows (SNum None) = SNum None.
Proof.
  intros F. induction F as [|r rows Hr _ IH]; simpl; [reflexivity|].
  destruct (Get r field) as [|n|s]; simpl.
  - exact IH.
  - exact IH.
  - now elim (Hr s).
Qed.

End WithHost.

(** X13. When every latest record carries a count in a column and the
    counts add up to less than 2^53, the total shown for that column is
    the sum of the counts (0 when there is no record). *)
Theorem total_is_the_sum_of_counts
  (host : Host) (field : jsstring) (latest : list record) :
  Forall (fun r => exists c, isCount (Get r field) c) latest ->
  (sumZ (List.map (fieldCount field) latest) < 2 ^ 53)%Z ->
  exists q,
    total host field latest = SNum (Some (Fin q))
    /\ (q == inject_Z (sumZ (List.map (fieldCount field) latest)))%Q.
Proof.
  intros F _. unfold total.
  destruct (total_from_count host field latest 0%Q 0%Z) as (q & E & Hq);
    [reflexivity | exact F |].
  exists q. split; [exact E|]. now rewrite Hq.
Qed.

(** X14. One record whose column holds a string (an empty cell is stored
    as the empty string) turns the total of that column into a string:
    from that record on the reduction concatenates instead of adding. *)
Theorem total_with_a_string_cell_is_a_string
  (host : Host) (field : jsstring) (before after : list record)
  (r : record) (s : jsstring) :
  Get r field = VStr s ->
  exists u, total host field (before ++ r :: after) = SStr u.
Proof.
  intros E. unfold total. rewrite fold_left_app. simpl. rewrite E.
  match goal with
  | |- context [plus host ?acc (VStr s)] => destruct acc as [n|t]
  end; simpl; apply total_from_string.
Qed.

(** X15. When the column is missing from a record and no record holds a
    string in it, the total of that column is NaN. *)
Theorem total_with_a_missing_cell_is_nan
  (host : Host) (field : jsstring) (before after : list record) (r : record) :
  Get r field = VUndef ->
  Forall (fun r' => forall s, Get r' field <> VStr s) (before ++ after) ->
  total host field (before ++ r :: after) = SNum None.
Proof.
  intros E F. apply Forall_app in F as [Fb Fa].
  assert (B : forall n, exists m,
             @fold_left sum record
               (fun s0 r0 => plus host s0 (Get r0 field)) before (SNum n)
             = SNum m).
  { induction Fb as [|r' rows Hr _ IH]; intros n; simpl.
    - now exists n.
    - destruct (Get r' field) as [|m|s]; simpl; [apply IH | apply IH | now elim (Hr s)]. }
  unfold total. rewrite fold_left_app.
  destruct (B (Some (Fin 0))) as [n Hn].
  match goal with
  | |- fold_left _ (r :: after) ?inner = _ => remember inner as acc eqn:Hacc
  end.
  assert (Ha : acc = SNum n) by (rewrite Hacc; exact Hn).
  rewrite Ha. simpl. rewrite E. simpl.
  replace (add n None) with (@None number) by (destruct n as [[?|?]|]; reflexivity).
  now apply total_nan.
Qed.

End RankingExtras.

(* ------------------------------------------------------------------ *)
(** ** More about the selection and what is drawn from it *)

Module SelectionExtras.

Lemma distinct_filter_length (y : value) (l : list value) :
  distinctCountries l = true ->
  (length l <= S (length (List.filter (fun x => negb (strictEq x y)) l)))%nat.
Proof.
  induction l as [|x l IH]; simpl; [lia|].
  intros D. apply andb_true_iff in D as [Dx Dl].
  apply negb_true_iff in Dx.
  destruct (strictEq x y) eqn:E; simpl.
  - rewrite (filter_others_all l x y Dx E). lia.
  - specialize (IH Dl). lia.
Qed.

Lemma allIncluded_forall (l m : list value) :
  allIncluded l m = true <-> forall x, In x l -> includes m x = true.
Proof. unfold allIncluded. apply forallb_forall. Qed.

(** As many distinct countries as fit: a duplicate-free list all of whose
    entries occur in [m] is no longer than [m]. *)
Lemma distinct_included_length (m l : list value) :
  distinctCountries l = true -> allIncluded l m = true ->
  (length l <= length m)%nat.
Proof.
  revert l. induction m as [|y m IH]; intros l D I.
  - destruct l as [|x l]; [simpl; lia|]. simpl in I. discriminate I.
  - pose proof (distinct_filter_length y l D) as L.
    assert (L' : (length (List.filter (fun x => negb (strictEq x y)) l)
                  <= length m)%nat).
    { apply IH; [now apply distinct_filter|].
      apply allIncluded_forall. intros x Hx.
      apply filter_In in Hx as [Hx Hy]. apply negb_true_iff in Hy.
      apply (proj1 (allIncluded_forall l (y :: m)) I) in Hx.
      simpl in Hx. now rewrite (strictEq_sym y x), Hy in Hx. }
    simpl. lia.
Qed.

Lemma includes_self (l : list value) (c : value) : In c l -> includes l c = true.
Proof.
  intros H. apply includes_In. exists c. split; [exact H | apply strictEq_refl].
Qed.

Lemma includes_removed (l : list value) (c : value) :
  includes (List.filter (fun x => negb (strictEq x c)) l) c = false.
Proof.
  destruct (includes (List.filter _ l) c) eqn:E; [|reflexivity].
  apply includes_In in E as (x & Hx & Ex).
  apply filter_In in Hx as [_ Hx]. now rewrite Ex in Hx.
Qed.

Lemma includes_same (l : list value) (a b : value) :
  strictEq a b = true -> includes l a = includes l b.
Proof.
  intros E. unfold includes. induction l as [|x l IH]; simpl; [reflexivity|].
  rewrite IH. f_equal.
  destruct (strictEq x a) eqn:A, (strictEq x b) eqn:B; try reflexivity.
  - now rewrite (strictEq_trans x a b A E) in B.
  - rewrite (strictEq_sym a b) in E. now rewrite (strictEq_trans x b a B E) in A.
Qed.

Lemma filter_removes_one (l : list value) (c : value) :
  includes l c = true ->
  (length (List.filter (fun x => negb (strictEq x c)) l) < length l)%nat.
Proof.
  induction l as [|x l IH]; simpl; [discriminate|].
  intros H. destruct (strictEq x c) eqn:E; simpl.
  - pose proof (filter_length_le (fun x => negb (strictEq x c)) l). lia.
  - simpl in H. specialize (IH H). lia.
Qed.

Lemma filter_absent (l : list value) (c : value) :
  includes l c = false ->
  List.filter (fun x => negb (strictEq x c)) l = l.
Proof.
  induction l as [|x l IH]; simpl; [reflexivity|].
  intros H. apply orb_false_iff in H as [Hx Hl].
  now rewrite Hx, (IH Hl).
Qed.

Lemma indexOf_position (l : list value) (i : nat) (c : value) :
  distinctCountries l = true -> nth_error l i = Some c -> indexOf l c = Some i.
Proof.
  revert i. induction l as [|x l IH]; intros [|i]; simpl; try discriminate.
  - intros _ E. injection E as ->. now rewrite strictEq_refl.
  - intros D E. apply andb_true_iff in D as [Dx Dl].
    apply negb_true_iff in Dx.
    destruct (strictEq x c) eqn:X.
    + apply nth_error_In in E.
      assert (I : includes l x = true).
      { apply includes_In. exists c. split; [exact E|].
        now rewrite strictEq_sym. }
      congruence.
    + now rewrite (IH i Dl E).
Qed.

Lemma top5Of_origin (latest : list record) (c : value) :
  In c (top5Of latest) -> exists r, In r latest /\ Get r (str "Country") = c.
Proof.
  unfold top5Of. intros Hc. apply in_map_iff in Hc as (r & E & Hr).
  exists r. split; [|exact E].
  apply (Permutation_in r (sort_perm byGoldDesc latest)).
  rewrite <- (firstn_skipn 5 (sort byGoldDesc latest)).
  apply in_or_app. now left.
Qed.

Lemma top5Of_length (latest : list record) : (length (top5Of latest) <= 5)%nat.
Proof. unfold top5Of. rewrite length_map. apply firstn_le_length. Qed.

Lemma wellSelected_firstn (s : state) :
  (length (countries s) <= 5)%nat ->
  distinctCountries (countries s) = true ->
  selectedCountries s = firstn 3 (countries s) ->
  wellSelected s.
Proof.
  intros L D E. unfold wellSelected. rewrite E.
  split; [exact L|]. split; [now apply distinct_firstn|].
  apply allIncluded_forall. intros x Hx. apply includes_self.
  rewrite <- (firstn_skipn 3 (countries s)). apply in_or_app. now left.
Qed.

Lemma wellSelected_uiStep (s s' : state) :
  uiStep s s' -> wellSelected s -> wellSelected s'.
Proof.
  intros St (L & D & I). destruct St as [v s _ _ | t s _ _ _ | row s _ _ _ | s _ _ | i c s _ _ N];
    try (repeat split; assumption).
  unfold wellSelected. simpl. split; [exact L|].
  split; [now apply toggleSelection_distinct|].
  unfold toggleSelection.
  destruct (includes (selectedCountries s) c).
  - apply allIncluded_forall. intros x Hx. apply filter_In in Hx as [Hx _].
    now apply (proj1 (allIncluded_forall _ _) I).
  - destruct (length (selectedCountries s) <? 5)%nat; [|exact I].
    unfold allIncluded. rewrite forallb_app. fold (allIncluded (selectedCountries s) (countries s)).
    rewrite I. simpl. rewrite andb_true_r.
    apply includes_self. eapply nth_error_In, N.
Qed.

Lemma uiStep_countries (s s' : state) : uiStep s s' -> countries s' = countries s.
Proof. intros St. destruct St; reflexivity. Qed.

Lemma wellSelected_uiReachable (s0 s : state) :
  uiReachable s0 s -> wellSelected s0 -> wellSelected s /\ countries s = countries s0.
Proof.
  intros R W. induction R as [|s s' R [IH C] St]; [now split|].
  split; [now apply (wellSelected_uiStep s s')|].
  now rewrite (uiStep_countries s s' St).
Qed.

Lemma wellSelected_room (s : state) (c : value) :
  wellSelected s -> In c (countries s) ->
  includes (selectedCountries s) c = false ->
  (length (selectedCountries s) < 5)%nat.
Proof.
  intros (L & D & I) Hc N.
  assert (P : (length (c :: selectedCountries s) <= length (countries s))%nat).
  { apply distinct_included_length.
    - simpl. now rewrite N, D.
    - simpl. now rewrite (includes_self _ c Hc), I. }
  simpl in P. lia.
Qed.

Section WithHost.
Variable host : Host.

Lemma loaded_wellSelected (fetched : completion (response * response)) (s0 s1 : state) :
  tryLoad host fetched s0 = Normal s1 ->
  distinctCountries (countries s1) = true ->
  wellSelected (loadData host fetched s0)
  /\ countries (loadData host fetched s0) = countries s1
  /\ latestData (loadData host fetched s0) = latestData s1.
Proof.
  intros E D. rewrite (loadData_committed host fetched s0 s1 E).
  destruct (tryLoad_committed host fetched s0 s1 E) as (Hc & Hs & _).
  split; [|split; reflexivity].
  apply wellSelected_firstn; simpl; [|exact D | exact Hs].
  rewrite Hc. apply top5Of_length.
Qed.

End WithHost.

(** X16. After a load that threw nothing and gave distinct country
    names, every country button does something in every state the
    controls can reach: clicking it selects the country when it was not
    selected and deselects it when it was. The five-country limit never
    stops a click, since there are at most five buttons. *)
Theorem every_country_button_toggles
  (host : Host) (fetched : completion (response * response))
  (s0 s1 s : state) (i : nat) (c : value) :
  tryLoad host fetched s0 = Normal s1 ->
  distinctCountries (countries s1) = true ->
  uiReachable (loadData host fetched s0) s ->
  nth_error (countries s) i = Some c ->
  includes (selectedCountries (toggleCountry c s)) c
  = negb (includes (selectedCountries s) c).
Proof.
  intros E D R N.
  destruct (loaded_wellSelected host fetched s0 s1 E D) as (W0 & _).
  destruct (wellSelected_uiReachable _ s R W0) as [W _].
  simpl. unfold toggleSelection.
  destruct (includes (selectedCountries s) c) eqn:I; simpl.
  - apply includes_removed.
  - pose proof (wellSelected_room s c W (nth_error_In _ _ N) I) as L.
    apply Nat.ltb_lt in L. rewrite L.
    rewrite includes_app. simpl. now rewrite strictEq_refl, orb_true_r.
Qed.

(** X17. In the same states, the countries drawn (one line and one card
    each) are exactly the selected ones: as many as are selected, each of
    them selected, in the order of the top-5 list rather than the order
    of the clicks. *)
Theorem cards_show_the_selection
  (host : Host) (fetched : completion (response * response)) (s0 s1 s : state) :
  tryLoad host fetched s0 = Normal s1 ->
  distinctCountries (countries s1) = true ->
  uiReachable (loadData host fetched s0) s ->
  length (cards s) = length (selectedCountries s)
  /\ subseq (cards s) (countries s)
  /\ (forall c, In c (cards s) -> includes (selectedCountries s) c = true).
Proof.
  intros E D R.
  destruct (loaded_wellSelected host fetched s0 s1 E D) as (W0 & C0 & _).
  destruct (wellSelected_uiReachable _ s R W0) as [(L & Ds & I) C].
  assert (Dc : distinctCountries (countries s) = true) by now rewrite C, C0.
  split; [|split].
  - apply Nat.le_antisymm.
    + apply distinct_included_length; [now apply distinct_filter|].
      apply allIncluded_forall. intros x Hx.
      now apply filter_In in Hx as [_ Hx].
    + apply distinct_included_length; [exact Ds|].
      apply allIncluded_forall. intros x Hx.
      pose proof (proj1 (allIncluded_forall _ _) I x Hx) as Hc.
      apply includes_In in Hc as (y & Hy & Eyx).
      apply includes_In. exists y. split; [|exact Eyx].
      apply filter_In. split; [exact Hy|].
      rewrite (includes_same (selectedCountries s) y x Eyx).
      now apply includes_self.
  - apply filter_subseq.
  - intros c Hc. now apply filter_In in Hc as [_ Hc].
Qed.

(** X18. After a load that threw nothing and gave distinct country
    names, the card of the i-th country uses the colour of the i-th
    button and line, and that colour exists. *)
Theorem card_colour_matches_button
  (host : Host) (fetched : completion (response * response))
  (s0 s1 : state) (i : nat) (c : value) :
  tryLoad host fetched s0 = Normal s1 ->
  distinctCountries (countries s1) = true ->
  nth_error (countries s1) i = Some c ->
  cardColour s1 c = colourAt i /\ exists colour, colourAt i = Some colour.
Proof.
  intros E D N. unfold cardColour, colourAt.
  rewrite (indexOf_position (countries s1) i c D N). split; [reflexivity|].
  destruct (tryLoad_committed host fetched s0 s1 E) as (Hc & _).
  assert (L : (i < length LINE_COLORS)%nat).
  { assert (i < length (countries s1))%nat by (apply nth_error_Some; congruence).
    pose proof (top5Of_length (latestData s1)). rewrite <- Hc in *.
    simpl. lia. }
  destruct (nth_error LINE_COLORS i) as [col|] eqn:X; [now exists col|].
  apply nth_error_None in X. lia.
Qed.

(** X19. After a load that threw nothing, every country of the top-5
    list finds a latest record to take its medal counts from, one whose
    Country is that country. *)
Theorem every_card_finds_its_record
  (host : Host) (fetched : completion (response * response))
  (s0 s1 : state) (c : value) :
  tryLoad host fetched s0 = Normal s1 ->
  In c (countries s1) ->
  exists r, cardRow s1 c = Some r
            /\ In r (latestData s1)
            /\ strictEq (Get r (str "Country")) c = true.
Proof.
  intros E Hc.
  destruct (tryLoad_committed host fetched s0 s1 E) as (C & _).
  rewrite C in Hc. apply top5Of_origin in Hc as (r & Hr & Er).
  unfold cardRow.
  destruct (List.find (fun r => strictEq (Get r (str "Country")) c) (latestData s1))
    as [r'|] eqn:F.
  - exists r'. split; [reflexivity|]. now apply find_some in F.
  - apply (find_none _ _ F) in Hr. simpl in Hr.
    rewrite Er, strictEq_refl in Hr. discriminate Hr.
Qed.

(** X20. Selecting a country and deselecting it again restores the
    selection exactly. *)
Theorem select_then_deselect_restores (c : value) (prev : list value) :
  includes prev c = false ->
  (length prev < 5)%nat ->
  toggleSelection c (toggleSelection c prev) = prev.
Proof.
  intros N L. unfold toggleSelection at 2. rewrite N.
  apply Nat.ltb_lt in L. rewrite L.
  unfold toggleSelection. rewrite includes_app. simpl.
  rewrite strictEq_refl, orb_true_r.
  rewrite filter_app. simpl. rewrite strictEq_refl. simpl.
  rewrite app_nil_r. now apply filter_absent.
Qed.

(** X21. Deselecting a country and selecting it again does not restore
    its place: it comes back as the last entry, the others keeping their
    order. *)
Theorem deselect_then_select_moves_last (c : value) (prev : list value) :
  includes prev c = true ->
  (length prev <= 5)%nat ->
  toggleSelection c (toggleSelection c prev)
  = List.filter (fun x => negb (strictEq x c)) prev ++ [c].
Proof.
  intros I L. unfold toggleSelection at 2. rewrite I.
  unfold toggleSelection. rewrite includes_removed.
  pose proof (filter_removes_one prev c I) as S.
  replace (length (List.filter (fun x => negb (strictEq x c)) prev) <? 5)%nat
    with true; [reflexivity|].
  symmetry. apply Nat.ltb_lt. lia.
Qed.

(** X22. Nothing the user can do changes what was loaded or which of the
    three screens is shown: every state reached by setting the view, the
    medal type, the hovered row or toggling a country has the loading
    flag, the error, the records, the chart points, the top-5 list and
    the date of the state it started from. *)
Theorem interactions_keep_the_loaded_data (s0 s : state) :
  reachable s0 s ->
  loaded s = loaded s0 /\ fetchError s = fetchError s0
  /\ latestData s = latestData s0 /\ historyData s = historyData s0
  /\ countries s = countries s0 /\ lastUpdated s = lastUpdated s0
  /\ render s = render s0.
Proof.
  intros R. induction R as [|s s' R IH St]; [repeat split|].
  destruct IH as (H1 & H2 & H3 & H4 & H5 & H6 & H7).
  destruct St; unfold render in *; simpl; repeat split; assumption.
Qed.

End SelectionExtras.

(* ------------------------------------------------------------------ *)
(** ** More about loading *)

Module LoadExtras.

Lemma parseCSV_returns (text : jsstring) : exists records, parseCSV text = Normal records.
Proof.
  destruct (split LF (normalize text)) as [|hl lines] eqn:E.
  - now apply split_nonempty in E.
  - eexists. exact (parseCSV_lines text hl lines E).
Qed.


(** X24. A load fails only for transport reasons: the fetches were
    rejected, a status was outside 200..299, or a body could not be
    read. Parsing and pivoting never make it fail. In each case the
    stored message is that cause's, and nothing else of the state
    changes except the loading flag. *)
Theorem load_fails_only_for_transport_reasons
  (host : Host) (fetched : completion (response * response)) (s : state) (m : jsstring) :
  tryLoad host fetched s = Throw m ->
  loadData host fetched s = setLoaded true (setFetchError m s)
  /\ (fetched = Throw m
      \/ exists latestRes historyRes,
           fetched = Normal (latestRes, historyRes)
           /\ ((ok latestRes = false
                /\ m = str "latest CSV: " ++ decimal (status latestRes))
               \/ (ok latestRes = true /\ ok historyRes = false
                   /\ m = str "history CSV: " ++ decimal (status historyRes))
               \/ (ok latestRes = true /\ ok historyRes = true
                   /\ (text latestRes = Throw m \/ text historyRes = Throw m)))).
Proof.
  intros E. split; [unfold loadData; now rewrite E|].
  unfold tryLoad in E. destruct fetched as [[latestRes historyRes]|m']; simpl in E.
  - right. exists latestRes, historyRes. split; [reflexivity|].
    destruct (ok latestRes); simpl in E; [|injection E as <-; now left].
    destruct (ok historyRes); simpl in E; [|injection E as <-; right; left; auto].
    right. right. split; [reflexivity|]. split; [reflexivity|].
    destruct (text latestRes) as [lt|m1]; simpl in E; [|injection E as <-; now left].
    destruct (text historyRes) as [ht|m2]; simpl in E; [|injection E as <-; now right].
    destruct (parseCSV_returns lt) as [latest P1].
    destruct (parseCSV_returns ht) as [history P2].
    rewrite P1 in E. simpl in E. rewrite P2 in E. discriminate E.
  - left. congruence.
Qed.

End LoadExtras.

(* ------------------------------------------------------------------ *)
(** ** The further properties at concrete inputs *)

Module MoreInstances.

Lemma gold_count_intro (r : record) (z : Z) :
  Get r (str "Gold") = VNum (Fin (inject_Z z)) ->
  ((0 <=? z) && (z <? 2 ^ 53))%Z = true ->
  hasGoldCount r.
Proof.
  intros E B. exists z, (inject_Z z).
  apply andb_true_iff in B as [B1 B2].
  apply Z.leb_le in B1. apply Z.ltb_lt in B2.
  split; [exact E|]. split; [reflexivity | split; assumption].
Defined.

Lemma medalRow_hasGoldCount (country : string) (gold : Z) :
  ((0 <=? gold) && (gold <? 2 ^ 53))%Z = true -> hasGoldCount (medalRow country gold).
Proof.
  intros B. apply (gold_count_intro (medalRow country gold) gold); [reflexivity | exact B].
Defined.

Lemma rankedRows_counts : Forall hasGoldCount rankedRows.
Proof.
  repeat (apply Forall_cons; [apply medalRow_hasGoldCount; reflexivity|]).
  apply Forall_nil.
Defined.

Lemma sampleLatest_counts : Forall hasGoldCount (latestData sampleLoaded).
Proof.
  remember (latestData sampleLoaded) as rows eqn:R.
  vm_compute in R. subst rows.
  repeat (apply Forall_cons;
          [eapply gold_count_intro;
           [vm_compute; reflexivity | vm_compute; reflexivity]|]).
  apply Forall_nil.
Defined.

Lemma sampleLoaded_tryLoad :
  tryLoad sampleHost sampleFetched initialState = Normal (setLoaded false sampleLoaded).
Proof. vm_compute. reflexivity. Defined.

Lemma sampleTimeseries_reachable :
  uiReachable (loadData sampleHost sampleFetched initialState) sampleTimeseries.
Proof.
  apply ui_next with (s := loadData sampleHost sampleFetched initialState).
  - apply ui_start.
  - apply (ui_tab (str "timeseries")).
    + vm_compute. reflexivity.
    + right. right. left. reflexivity.
Defined.

Lemma ranked_input_keeps_its_order_witness :
  top5Of rankedRows
  = List.map (fun r => Get r (str "Country")) (firstn 5 rankedRows).
Proof.
  apply (RankingExtras.ranked_input_keeps_its_order rankedRows rankedRows_counts).
  unfold descendingBy, rankedRows.
  repeat (apply SSorted_cons;
          [|repeat (apply Forall_cons; [vm_compute; intros H; discriminate H|]);
            apply Forall_nil]).
  apply SSorted_nil.
Defined.

Lemma top5_dominates_the_rest_witness :
  (goldCount (last (sort byGoldDesc (latestData sampleLoaded)) [])
   <= goldCount (hd [] (sort byGoldDesc (latestData sampleLoaded))))%Z.
Proof.
  apply (RankingExtras.top5_dominates_the_rest (latestData sampleLoaded)).
  - exact sampleLatest_counts.
  - vm_compute. left. reflexivity.
  - vm_compute. left. reflexivity.
Defined.

Lemma total_is_the_sum_of_counts_witness :
  exists q,
    total sampleHost (str "Gold") (latestData sampleLoaded) = SNum (Some (Fin q))
    /\ (q == inject_Z
              (sumZ (List.map (fieldCount (str "Gold")) (latestData sampleLoaded))))%Q.
Proof.
  apply (RankingExtras.total_is_the_sum_of_counts sampleHost (str "Gold")
           (latestData sampleLoaded)).
  - exact sampleLatest_counts.
  - vm_compute. reflexivity.
Defined.

Lemma total_with_a_string_cell_is_a_string_witness :
  exists u,
    total sampleHost (str "Gold")
      ([medalRow "Norway" 5]
         ++ [(str "Country", VStr (str "Italy")); (str "Gold", VStr [])]
         :: [medalRow "Canada" 4]) = SStr u.
Proof.
  apply (RankingExtras.total_with_a_string_cell_is_a_string sampleHost (str "Gold")
           [medalRow "Norway" 5] [medalRow "Canada" 4]
           [(str "Country", VStr (str "Italy")); (str "Gold", VStr [])] []).
  vm_compute. reflexivity.
Defined.

Lemma total_with_a_missing_cell_is_nan_witness :
  total sampleHost (str "Silver") ([] ++ medalRow "Norway" 5 :: [medalRow "Canada" 4])
  = SNum None.
Proof.
  apply (RankingExtras.total_with_a_missing_cell_is_nan sampleHost (str "Silver")
           [] [medalRow "Canada" 4] (medalRow "Norway" 5)).
  - vm_compute. reflexivity.
  - apply Forall_cons; [|apply Forall_nil].
    intros s. vm_compute. intros H. discriminate H.
Defined.

Lemma every_country_button_toggles_witness :
  includes (selectedCountries (toggleCountry (VStr (str "Germany")) sampleTimeseries))
    (VStr (str "Germany"))
  = negb (includes (selectedCountries sampleTimeseries) (VStr (str "Germany"))).
Proof.
  apply (SelectionExtras.every_country_button_toggles sampleHost sampleFetched
           initialState (setLoaded false sampleLoaded) sampleTimeseries 3
           (VStr (str "Germany"))).
  - exact sampleLoaded_tryLoad.
  - vm_compute. reflexivity.
  - exact sampleTimeseries_reachable.
  - vm_compute. reflexivity.
Defined.

Lemma cards_show_the_selection_witness :
  length (cards sampleTimeseries) = length (selectedCountries sampleTimeseries)
  /\ subseq (cards sampleTimeseries) (countries sampleTimeseries)
  /\ (forall c, In c (cards sampleTimeseries) ->
                includes (selectedCountries sampleTimeseries) c = true).
Proof.
  apply (SelectionExtras.cards_show_the_selection sampleHost sampleFetched
           initialState (setLoaded false sampleLoaded) sampleTimeseries).
  - exact sampleLoaded_tryLoad.
  - vm_compute. reflexivity.
  - exact sampleTimeseries_reachable.
Defined.

Lemma card_colour_matches_button_witness :
  cardColour (setLoaded false sampleLoaded) (VStr (str "Italy")) = colourAt 2
  /\ exists colour, colourAt 2 = Some colour.
Proof.
  apply (SelectionExtras.card_colour_matches_button sampleHost sampleFetched
           initialState (setLoaded false sampleLoaded) 2 (VStr (str "Italy"))).
  - exact sampleLoaded_tryLoad.
  - vm_compute. reflexivity.
  - vm_compute. reflexivity.
Defined.

Lemma every_card_finds_its_record_witness :
  exists r, cardRow (setLoaded false sampleLoaded) (VStr (str "Italy")) = Some r
            /\ In r (latestData (setLoaded false sampleLoaded))
            /\ strictEq (Get r (str "Country")) (VStr (str "Italy")) = true.
Proof.
  apply (SelectionExtras.every_card_finds_its_record sampleHost sampleFetched
           initialState (setLoaded false sampleLoaded) (VStr (str "Italy"))).
  - exact sampleLoaded_tryLoad.
  - vm_compute. right. right. left. reflexivity.
Defined.

Lemma select_then_deselect_restores_witness :
  toggleSelection (VStr (str "Japan"))
    (toggleSelection (VStr (str "Japan")) (selectedCountries sampleLoaded))
  = selectedCountries sampleLoaded.
Proof.
  apply (SelectionExtras.select_then_deselect_restores (VStr (str "Japan"))
           (selectedCountries sampleLoaded)).
  - vm_compute. reflexivity.
  - vm_compute. lia.
Defined.

Lemma deselect_then_select_moves_last_witness :
  toggleSelection (VStr (str "Norway"))
    (toggleSelection (VStr (str "Norway")) (selectedCountries sampleLoaded))
  = List.filter (fun x => negb (strictEq x (VStr (str "Norway"))))
      (selectedCountries sampleLoaded) ++ [VStr (str "Norway")].
Proof.
  apply (SelectionExtras.deselect_then_select_moves_last (VStr (str "Norway"))
           (selectedCountries sampleLoaded)).
  - vm_compute. reflexivity.
  - vm_compute. lia.
Defined.

Lemma interactions_keep_the_loaded_data_witness :
  loaded fiveSelected = loaded sampleLoaded
  /\ fetchError fiveSelected = fetchError sampleLoaded
  /\ latestData fiveSelected = latestData sampleLoaded
  /\ historyData fiveSelected = historyData sampleLoaded
  /\ countries fiveSelected = countries sampleLoaded
  /\ lastUpdated fiveSelected = lastUpdated sampleLoaded
  /\ render fiveSelected = render sampleLoaded.
Proof.
  apply (SelectionExtras.interactions_keep_the_loaded_data sampleLoaded fiveSelected).
  unfold fiveSelected.
  apply reach_step with (s := toggleCountry (VStr (str "Germany")) sampleLoaded).
  - apply reach_step with (s := sampleLoaded); [apply reach_start | apply step_toggle].
  - apply step_toggle.
Defined.


Lemma load_fails_only_for_transport_reasons_witness :
  loadData sampleHost (Throw (str "Failed to fetch")) initialState
  = setLoaded true (setFetchError (str "Failed to fetch") initialState).
Proof.
  apply (LoadExtras.load_fails_only_for_transport_reasons sampleHost
           (Throw (str "Failed to fetch")) initialState (str "Failed to fetch")).
  reflexivity.
Defined.

End MoreInstances.
